(** * RepoCode front end: the analysis stream and the terminal panel

    A shallow embedding of [src/frontend/src/App.jsx] (the decode loop of
    [runAnalysis] and the dispatcher [handleSSE]) and of
    [src/frontend/src/components/TerminalPanel.jsx] ([runCommand], [askAI],
    [approvePending], [handleSubmit]), with the properties the
    specification states about them; further on, of the chat box of
    [App.jsx] ([parseRepo], [sendChat]) and of the files panel
    ([src/unnamed/part_000], the component [FilesPanel]), with properties
    read off the code.

    Conventions.
    - A JavaScript string is the list of its UTF-16 code units ([jsstring]).
    - A [Uint8Array] chunk is a [list byte].
    - React state is a record; a state setter is a function on that record.
      A handler closes over the state values of the render that created it,
      so the values it _reads_ are passed separately from the state it
      _updates_ wherever the two can differ.
    - An [await] splits an async function into the part run at the call and
      the continuation run when the response arrives. *)

From Stdlib Require Import List NArith ZArith Bool Lia.
From Stdlib.Strings Require Import String Ascii Byte.
From Stdlib Require Import DecimalString.
Import ListNotations.

Set Implicit Arguments.
Set Warnings "-register-all".

(* ===================================================================== *)
(** * JavaScript strings                                                  *)
(* ===================================================================== *)

Module JS.

Open Scope N_scope.

(** A string is its sequence of UTF-16 code units. *)
Definition jsstring := list N.

(** An ASCII literal of the source as a [jsstring]. *)
Definition lit (s : string) : jsstring :=
  map N_of_ascii (list_ascii_of_string s).

Definition LF : N := 10.

Fixpoint str_eqb (a b : jsstring) : bool :=
  match a, b with
  | [], [] => true
  | x :: a', y :: b' => (x =? y) && str_eqb a' b'
  | _, _ => false
  end.

(** [s.startsWith(p)] *)
Fixpoint startsWith (s p : jsstring) {struct p} : bool :=
  match p, s with
  | [], _ => true
  | y :: p', x :: s' => (x =? y) && startsWith s' p'
  | _ :: _, [] => false
  end.

(** [s.slice(n)] for a non-negative [n]. *)
Definition slice (n : nat) (s : jsstring) : jsstring := skipn n s.

(** [s.split("\n")]: never empty; a string without a line feed is its own
    single piece. *)
Fixpoint split_lines (s : jsstring) : list jsstring :=
  match s with
  | [] => [[]]
  | c :: r =>
      if c =? LF then [] :: split_lines r
      else match split_lines r with
           | l :: ls => (c :: l) :: ls
           | [] => [[c]]
           end
  end.

(** The string has no line feed. *)
Definition no_LF (s : jsstring) : Prop := ~ In LF s.

(** White space and line terminators of ECMAScript, as [trim] strips them. *)
Definition is_space (c : N) : bool :=
  ((0x09 <=? c) && (c <=? 0x0D)) || (c =? 0x20) || (c =? 0xA0) ||
  (c =? 0x1680) || ((0x2000 <=? c) && (c <=? 0x200A)) ||
  (c =? 0x2028) || (c =? 0x2029) || (c =? 0x202F) || (c =? 0x205F) ||
  (c =? 0x3000) || (c =? 0xFEFF).

Fixpoint trimStart (s : jsstring) : jsstring :=
  match s with
  | c :: r => if is_space c then trimStart r else s
  | [] => []
  end.

Definition trimEnd (s : jsstring) : jsstring := rev (trimStart (rev s)).

Definition trim (s : jsstring) : jsstring := trimEnd (trimStart s).

(** [\w] of a regular expression without the [u] and [i] flags. *)
Definition is_word (c : N) : bool :=
  ((0x30 <=? c) && (c <=? 0x39)) || ((0x41 <=? c) && (c <=? 0x5A)) ||
  (c =? 0x5F) || ((0x61 <=? c) && (c <=? 0x7A)).

(** Decimal rendering of an integer, as a template literal renders a
    number that is an integer. *)
Definition of_Z (n : Z) : jsstring := lit (NilZero.string_of_int (Z.to_int n)).

End JS.

(* ===================================================================== *)
(** * TextDecoder                                                         *)
(* ===================================================================== *)

(** [new TextDecoder()] is the UTF-8 decoder of the Encoding standard in
    replacement mode; [decode(value, { stream: true })] keeps the decoder
    state between calls. *)
Module TextDecoder.

Import JS.
Open Scope N_scope.

Record utf8 := {
  code_point : N;
  bytes_seen : N;
  bytes_needed : N;
  lower_boundary : N;
  upper_boundary : N }.

Definition utf8_init : utf8 :=
  {| code_point := 0; bytes_seen := 0; bytes_needed := 0;
     lower_boundary := 0x80; upper_boundary := 0xBF |}.

Definition REPLACEMENT : N := 0xFFFD.
Definition BOM : N := 0xFEFF.

Definition lead (cp needed lo hi : N) : utf8 :=
  {| code_point := cp; bytes_seen := 0; bytes_needed := needed;
     lower_boundary := lo; upper_boundary := hi |}.

(** The handler when no sequence is open ([bytes_needed = 0]); the result
    is the next state and the scalar values emitted. *)
Definition utf8_first (b : N) : utf8 * list N :=
  if b <=? 0x7F then (utf8_init, [b])
  else if (0xC2 <=? b) && (b <=? 0xDF) then
    (lead (N.land b 0x1F) 1 0x80 0xBF, [])
  else if (0xE0 <=? b) && (b <=? 0xEF) then
    (lead (N.land b 0xF) 2
       (if b =? 0xE0 then 0xA0 else 0x80)
       (if b =? 0xED then 0x9F else 0xBF), [])
  else if (0xF0 <=? b) && (b <=? 0xF4) then
    (lead (N.land b 0x7) 3
       (if b =? 0xF0 then 0x90 else 0x80)
       (if b =? 0xF4 then 0x8F else 0xBF), [])
  else (utf8_init, [REPLACEMENT]).

(** One byte through the decoder.  A byte outside the expected range ends
    the open sequence with U+FFFD and is then handled again from the
    initial state. *)
Definition utf8_byte (d : utf8) (b : N) : utf8 * list N :=
  if bytes_needed d =? 0 then utf8_first b
  else if negb ((lower_boundary d <=? b) && (b <=? upper_boundary d)) then
    let '(d', out) := utf8_first b in (d', REPLACEMENT :: out)
  else
    let cp := N.lor (N.shiftl (code_point d) 6) (N.land b 0x3F) in
    if bytes_seen d + 1 =? bytes_needed d then (utf8_init, [cp])
    else ({| code_point := cp; bytes_seen := bytes_seen d + 1;
             bytes_needed := bytes_needed d;
             lower_boundary := 0x80; upper_boundary := 0xBF |}, []).

Fixpoint utf8_bytes (d : utf8) (bs : list byte) : utf8 * list N :=
  match bs with
  | [] => (d, [])
  | b :: r =>
      let '(d1, o1) := utf8_byte d (Byte.to_N b) in
      let '(d2, o2) := utf8_bytes d1 r in
      (d2, o1 ++ o2)
  end.

(** End of input when flushing: an open sequence yields U+FFFD. *)
Definition utf8_flush (d : utf8) : list N :=
  if bytes_needed d =? 0 then [] else [REPLACEMENT].

(** A scalar value as UTF-16 code units. *)
Definition utf16 (cp : N) : jsstring :=
  if cp <? 0x10000 then [cp]
  else [0xD800 + N.shiftr (cp - 0x10000) 10;
        0xDC00 + N.land (cp - 0x10000) 0x3FF].

Definition utf16s (cps : list N) : jsstring := flat_map utf16 cps.

(** The decoder object: the UTF-8 state and the "BOM seen" flag. *)
Record t := { decoder : utf8; BOM_seen : bool }.

Definition create : t := {| decoder := utf8_init; BOM_seen := false |}.

(** Serialising the scalar values of one call: the first scalar value of
    the whole stream is dropped when it is U+FEFF. *)
Definition serialize (seen : bool) (cps : list N) : bool * list N :=
  match cps with
  | [] => (seen, [])
  | c :: r => (true, if negb seen && (c =? BOM) then r else cps)
  end.

(** [decoder.decode(value, { stream: true })] *)
Definition decode (td : t) (value : list byte) : t * jsstring :=
  let '(d, cps) := utf8_bytes (decoder td) value in
  let '(seen, out) := serialize (BOM_seen td) cps in
  ({| decoder := d; BOM_seen := seen |}, utf16s out).

(** The text of a complete byte sequence: its UTF-8 decoding with every
    ill-formed sequence replaced by U+FFFD (no BOM handling). *)
Definition text_of (bs : list byte) : jsstring :=
  let '(d, cps) := utf8_bytes utf8_init bs in utf16s (cps ++ utf8_flush d).

(** The decoder states that arise: inside a sequence the expected range
    lies within 80..BF, and the bits collected so far are not all zero
    unless the range starts above 8F (after E0 and F0). *)
Definition okb (d : utf8) : bool :=
  (bytes_needed d =? 0) ||
  ((0x80 <=? lower_boundary d) && (upper_boundary d <=? 0xBF) &&
   ((1 <=? code_point d) || (0x90 <=? lower_boundary d))).

End TextDecoder.

(* ===================================================================== *)
(** * App.jsx: the analysis session                                       *)
(* ===================================================================== *)

Module App.

Import JS.
Open Scope N_scope.

(** ** Values *)

(** What [JSON.parse] returns, and [undefined] for an absent property.
    An object is the list of its properties, each key once.  Numbers are
    the integers of the wire protocol. *)
Inductive value :=
| Undefined
| Null
| Bool (b : bool)
| Num (n : Z)
| Str (s : jsstring)
| Arr (items : list value)
| Obj (props : list (jsstring * value)).

(** [!!v] *)
Definition truthy (v : value) : bool :=
  match v with
  | Undefined | Null => false
  | Bool b => b
  | Num n => negb (n =? 0)%Z
  | Str s => match s with [] => false | _ => true end
  | Arr _ | Obj _ => true
  end.

Fixpoint lookup (key : jsstring) (props : list (jsstring * value)) : value :=
  match props with
  | [] => Undefined
  | (k, v) :: r => if str_eqb k key then v else lookup key r
  end.

(** [v.key] for the keys of the wire protocol, none of which is inherited
    from a prototype: [None] is the [TypeError] of reading a property of
    [null] or [undefined]. *)
Definition get (v : value) (key : jsstring) : option value :=
  match v with
  | Undefined | Null => None
  | Obj props => Some (lookup key props)
  | _ => Some Undefined
  end.

(** [v.key] where [v] is known not to be [null] or [undefined]. *)
Definition prop (v : value) (key : jsstring) : value :=
  match get v key with Some x => x | None => Undefined end.

(** [v === "s"] *)
Definition is_str (v : value) (s : string) : bool :=
  match v with Str t => str_eqb t (lit s) | _ => false end.

Fixpoint join (sep : jsstring) (l : list jsstring) : jsstring :=
  match l with
  | [] => []
  | [x] => x
  | x :: r => x ++ sep ++ join sep r
  end.

(** The conversion a template literal applies to [${v}], for the values
    [JSON.parse] builds from plain data. *)
Fixpoint ToString (v : value) : jsstring :=
  match v with
  | Undefined => lit "undefined"
  | Null => lit "null"
  | Bool true => lit "true"
  | Bool false => lit "false"
  | Num n => of_Z n
  | Str s => s
  | Arr items =>
      join (lit ",")
        (map (fun x => match x with
                       | Undefined | Null => []
                       | _ => ToString x
                       end) items)
  | Obj _ => lit "[object Object]"
  end.

(** ** Component state *)

Record Message := { role : jsstring; content : jsstring }.
Record FileResult := { path : value; analysis : value }.
Record Progress := { current : value; total : value; file : value }.

(** The state hooks of [App]; [analyzeProgress = null] is [None]. *)
Record State := {
  activeTab : jsstring;
  messages : list Message;
  analysisResults : list FileResult;
  summary : value;
  isAnalyzing : bool;
  analyzeProgress : option Progress }.

Definition setActiveTab (v : jsstring) (st : State) : State :=
  {| activeTab := v; messages := messages st;
     analysisResults := analysisResults st; summary := summary st;
     isAnalyzing := isAnalyzing st; analyzeProgress := analyzeProgress st |}.

(** The setters of [messages] and [analysisResults] are called with an
    updater function of the previous value. *)
Definition setMessages (f : list Message -> list Message) (st : State) : State :=
  {| activeTab := activeTab st; messages := f (messages st);
     analysisResults := analysisResults st; summary := summary st;
     isAnalyzing := isAnalyzing st; analyzeProgress := analyzeProgress st |}.

Definition setAnalysisResults (f : list FileResult -> list FileResult)
    (st : State) : State :=
  {| activeTab := activeTab st; messages := messages st;
     analysisResults := f (analysisResults st); summary := summary st;
     isAnalyzing := isAnalyzing st; analyzeProgress := analyzeProgress st |}.

Definition setSummary (v : value) (st : State) : State :=
  {| activeTab := activeTab st; messages := messages st;
     analysisResults := analysisResults st; summary := v;
     isAnalyzing := isAnalyzing st; analyzeProgress := analyzeProgress st |}.

Definition setIsAnalyzing (v : bool) (st : State) : State :=
  {| activeTab := activeTab st; messages := messages st;
     analysisResults := analysisResults st; summary := summary st;
     isAnalyzing := v; analyzeProgress := analyzeProgress st |}.

Definition setAnalyzeProgress (v : option Progress) (st : State) : State :=
  {| activeTab := activeTab st; messages := messages st;
     analysisResults := analysisResults st; summary := summary st;
     isAnalyzing := isAnalyzing st; analyzeProgress := v |}.

Definition assistant (text : jsstring) : Message :=
  {| role := lit "assistant"; content := text |}.

(** The first message, [useState([{ role: "assistant", content: ... }])]. *)
Definition greeting : Message :=
  assistant
    ([0xD83D; 0xDC4B] ++ lit " Hey! I'm **RepoAI** " ++ [0x2014] ++
     lit " powered by Groq (free)." ++ [LF; LF] ++
     lit "What I can do:" ++ [LF] ++
     lit "- `analyze owner/repo` " ++ [0x2014] ++ lit " scan a GitHub repo" ++ [LF] ++
     lit "- **Terminal tab** " ++ [0x2014] ++
     lit " run CLI commands in your Codespace" ++ [LF] ++
     lit "- **Files tab** " ++ [0x2014] ++
     lit " read, write, or AI-edit files in your Codespace" ++ [LF; LF] ++
     lit "How can I help?").

(** The state of the first render. *)
Definition mount : State :=
  {| activeTab := lit "chat"; messages := [greeting]; analysisResults := [];
     summary := Null; isAnalyzing := false; analyzeProgress := None |}.

(** ** handleSSE *)

Definition notice_summary (repo : jsstring) (s : value) : Message :=
  assistant ([0x2705] ++ lit " Done analyzing **" ++ repo ++ lit "**!" ++
             [LF; LF] ++ ToString s).

Definition notice_done (repo : jsstring) (n : value) : Message :=
  assistant ([0x2705] ++ lit " Analyzed **" ++ ToString n ++
             lit " files** from **" ++ repo ++ lit "**. Check Results tab.").

Definition notice_error (m : value) : Message :=
  assistant ([0x26A0; 0xFE0F] ++ lit " " ++ ToString m).

(** [handleSSE(event, repo)].

    The first argument is the variable [summary] that the body reads in
    its [done] case: the constant bound by [useState] in the render whose
    closure this [handleSSE] belongs to.  [setSummary] changes the state
    that later renders see, never that constant.

    The result is [None] when the body throws, which only reading
    [event.type] can do; nothing has been updated by then. *)
Definition handleSSE (summary : value) (event : value) (repo : jsstring)
    (st : State) : option State :=
  match get event (lit "type") with
  | None => None
  | Some type =>
      Some
        (if is_str type "progress" then
           setAnalyzeProgress
             (Some {| current := prop event (lit "current");
                      total := prop event (lit "total");
                      file := prop event (lit "file") |}) st
         else if is_str type "file_result" then
           setAnalysisResults
             (fun prev => prev ++ [{| path := prop event (lit "file");
                                      analysis := prop event (lit "analysis") |}])
             st
         else if is_str type "summary" then
           setActiveTab (lit "chat")
             (setMessages
                (fun prev => prev ++ [notice_summary repo (prop event (lit "summary"))])
                (setSummary (prop event (lit "summary")) st))
         else if is_str type "done" then
           if negb (truthy summary) then
             setActiveTab (lit "chat")
               (setMessages
                  (fun prev => prev ++
                     [notice_done repo (prop event (lit "total_analyzed"))])
                  st)
           else st
         else if is_str type "error" then
           setMessages (fun prev => prev ++ [notice_error (prop event (lit "message"))]) st
         else st)
  end.

(** ** The decode loop of runAnalysis *)

(** The two local variables of the loop. *)
Record Reader := { decoder : TextDecoder.t; buffer : jsstring }.

Definition reader_init : Reader :=
  {| decoder := TextDecoder.create; buffer := [] |}.

Section Loop.

(** [JSON.parse]: [None] when it throws. *)
Variable JSON_parse : jsstring -> option value.

(** What the loop hands each parsed event to, over any state; [None]
    when that call throws. *)
Variable S : Type.
Variable dispatch : value -> S -> option S.

(** The body of [for (const line of lines)]; both failures end in the
    empty [catch]. *)
Definition on_line (line : jsstring) (st : S) : S :=
  if negb (startsWith line (lit "data: ")) then st
  else match JSON_parse (slice 6 line) with
       | None => st
       | Some event =>
           match dispatch event st with
           | Some st' => st'
           | None => st
           end
       end.

Definition on_lines (lines : list jsstring) (st : S) : S :=
  fold_left (fun s line => on_line line s) lines st.

(** One iteration of [while (true)] for a chunk that was read. *)
Definition on_chunk (rs : Reader * S) (value : list byte) : Reader * S :=
  let '(r, st) := rs in
  let '(td, text) := TextDecoder.decode (decoder r) value in
  let lines := split_lines (buffer r ++ text) in
  ({| decoder := td; buffer := last lines [] |},
   on_lines (removelast lines) st).

(** The loop up to [if (done) break]. *)
Definition read_loop (chunks : list (list byte)) (rs : Reader * S) : Reader * S :=
  fold_left on_chunk chunks rs.

End Loop.

(** How the response body ends: [done], or a rejected [read()] or
    [fetch()] with the message of its error. *)
Inductive StreamEnd :=
| EndOfStream
| Rejected (message : jsstring).

Definition notice_failed (m : jsstring) : Message :=
  assistant ([0x274C] ++ lit " Analysis failed: " ++ m).

Section RunAnalysis.

Variable JSON_parse : jsstring -> option value.

(** The statements before [try]. *)
Definition runAnalysis_begin (st : State) : State :=
  setAnalyzeProgress
    (Some {| current := Num 0; total := Num 0; file := Str [] |})
    (setSummary Null (setAnalysisResults (fun _ => []) (setIsAnalyzing true st))).

(** [finally] *)
Definition runAnalysis_finally (st : State) : State :=
  setAnalyzeProgress None (setIsAnalyzing false st).

(** After the loop: the [catch] of a rejected read, then [finally]. *)
Definition runAnalysis_end (e : StreamEnd) (st : State) : State :=
  runAnalysis_finally
    match e with
    | EndOfStream => st
    | Rejected m => setMessages (fun prev => prev ++ [notice_failed m]) st
    end.

(** [runAnalysis(repo)] called from the render [render], on a response
    body that arrives as [chunks] and ends with [e]. *)
Definition runAnalysis (render : State) (repo : jsstring)
    (chunks : list (list byte)) (e : StreamEnd) (st : State) : State :=
  runAnalysis_end e
    (snd (read_loop JSON_parse
            (fun event => handleSSE (summary render) event repo)
            chunks (reader_init, runAnalysis_begin st))).

(** The events handed to the dispatcher, in order. *)
Definition delivered (chunks : list (list byte)) : list value :=
  snd (read_loop JSON_parse (fun event tr => Some (tr ++ [event]))
         chunks (reader_init, [])).

End RunAnalysis.

(** A session: the events handled so far by the [handleSSE] of one
    render, a throwing call leaving the state as it was. *)
Definition handle (summary : value) (repo : jsstring) (st : State)
    (event : value) : State :=
  match handleSSE summary event repo st with
  | Some st' => st'
  | None => st
  end.

Definition handle_all (summary : value) (repo : jsstring)
    (events : list value) (st : State) : State :=
  fold_left (handle summary repo) events st.

(** ** Reading a session *)

(** [event.type], where reading it does not throw. *)
Definition type_of (event : value) : value := prop event (lit "type").

(** The frames after which the specification calls the session
    Completed or Failed. *)
Definition terminal_frame (event : value) : bool :=
  is_str (type_of event) "summary" || is_str (type_of event) "error".

(** The frames whose case assigns results, progress or summary. *)
Definition recording_frame (event : value) : bool :=
  is_str (type_of event) "progress" || is_str (type_of event) "file_result" ||
  is_str (type_of event) "summary".

(** The [case] labels of the [switch]. *)
Definition known_type (event : value) : bool :=
  match get event (lit "type") with
  | Some type =>
      is_str type "progress" || is_str type "file_result" ||
      is_str type "summary" || is_str type "done" || is_str type "error"
  | None => false
  end.

(** A candidate line that is not acted upon: its payload does not parse,
    or parses to a value without a known type. *)
Definition dropped (JSON_parse : jsstring -> option value) (line : jsstring) : bool :=
  match JSON_parse (slice 6 line) with
  | None => true
  | Some event => negb (known_type event)
  end.

(** Two states that agree on results, progress and summary. *)
Definition same_session (a b : State) : Prop :=
  analysisResults a = analysisResults b /\
  analyzeProgress a = analyzeProgress b /\
  summary a = summary b.

(** ** Frames of the wire protocol *)

(** The bytes of ["data: "]. *)
Definition DATA : list byte := [x64; x61; x74; x61; x3a; x20].

(** A complete line of the stream: the marker, the payload, a line feed. *)
Definition frame (payload : list byte) : list byte := DATA ++ payload ++ [x0a].

Definition stream (payloads : list (list byte)) : list byte :=
  List.concat (map frame payloads).

(** No line feed among the bytes. *)
Definition no_newline (bs : list byte) : bool :=
  forallb (fun b => negb (Byte.eqb b x0a)) bs.

Definition progress_frame (c t : Z) (f : string) : value :=
  Obj [(lit "type", Str (lit "progress")); (lit "current", Num c);
       (lit "total", Num t); (lit "file", Str (lit f))].

Definition file_result_frame (f a : string) : value :=
  Obj [(lit "type", Str (lit "file_result")); (lit "file", Str (lit f));
       (lit "analysis", Str (lit a))].

Definition summary_frame (s : string) : value :=
  Obj [(lit "type", Str (lit "summary")); (lit "summary", Str (lit s))].

Definition done_frame (n : Z) : value :=
  Obj [(lit "type", Str (lit "done")); (lit "total_analyzed", Num n)].

Definition error_frame (m : string) : value :=
  Obj [(lit "type", Str (lit "error")); (lit "message", Str (lit m))].

End App.

(* ===================================================================== *)
(** * App.jsx: the chat box                                               *)
(* ===================================================================== *)

Module Chat.

Import JS App.
Open Scope N_scope.

(** ** parseRepo *)

Definition is_nil (s : jsstring) : bool :=
  match s with [] => true | _ => false end.

(** The class [[\w.\-]]; without the [u] flag the [i] flag adds nothing to
    it, nor to [\s]. *)
Definition is_repo_char (c : N) : bool :=
  is_word c || (c =? 0x2E) || (c =? 0x2D).

(** A lower case letter of the pattern under the [i] flag: the letter or
    its capital. *)
Definition letter_matches (c k : N) : bool := (c =? k) || (c =? k - 32).

Fixpoint starts_nocase (s p : jsstring) {struct p} : bool :=
  match p, s with
  | [], _ => true
  | k :: p', c :: s' => letter_matches c k && starts_nocase s' p'
  | _ :: _, [] => false
  end.

(** The longest prefix of characters of a class, and what follows it. *)
Fixpoint span (f : N -> bool) (s : jsstring) : jsstring * jsstring :=
  match s with
  | c :: r => if f c then let '(a, b) := span f r in (c :: a, b) else ([], s)
  | [] => ([], [])
  end.

(** [/analyze\s+([\w.\-]+\/[\w.\-]+)/i] tried at the start of [s]; the
    result is the capture.  The three classes are disjoint from what must
    follow them, so each [+] can only match the longest run. *)
Definition match_here (s : jsstring) : option jsstring :=
  if starts_nocase s (lit "analyze") then
    let '(spaces, r1) := span is_space (skipn 7 s) in
    if is_nil spaces then None
    else
      let '(owner, r2) := span is_repo_char r1 in
      if is_nil owner then None
      else match r2 with
           | c :: r3 =>
               if c =? 0x2F then
                 let '(name, _) := span is_repo_char r3 in
                 if is_nil name then None
                 else Some (owner ++ lit "/" ++ name)
               else None
           | [] => None
           end
  else None.

(** [parseRepo(text)]: the capture of the leftmost match, or [null]. *)
Fixpoint parseRepo (text : jsstring) : option jsstring :=
  match match_here text with
  | Some repo => Some repo
  | None =>
      match text with
      | _ :: rest => parseRepo rest
      | [] => None
      end
  end.

(** [repo] is matched at the very start of [text]: the keyword in any
    mix of cases, white space, and two runs of class characters around a
    slash, the second run as long as it can be. *)
Definition shaped (text repo : jsstring) : Prop :=
  exists kw spaces owner name rest,
    text = kw ++ spaces ++ owner ++ lit "/" ++ name ++ rest /\
    repo = owner ++ lit "/" ++ name /\
    List.length kw = 7%nat /\ starts_nocase kw (lit "analyze") = true /\
    spaces <> [] /\ forallb is_space spaces = true /\
    owner <> [] /\ forallb is_repo_char owner = true /\
    name <> [] /\ forallb is_repo_char name = true /\
    match rest with c :: _ => is_repo_char c = false | [] => True end.

(** ** sendChat *)

(** The body of a request of [App]. *)
Inductive Request :=
| PostAnalyze (repo branch : jsstring) (max_files : Z)   (* /analyze, summary: true *)
| PostChat (messages : list Message).                    (* /chat *)

(** The outcome of the [/chat] request: the [reply] and [error] fields of
    the data, either of which may be absent, or an exception. *)
Inductive Reply :=
| ChatJson (reply error : option jsstring)
| ChatFailed.

Definition user (text : jsstring) : Message :=
  {| role := lit "user"; content := text |}.

Definition notice_starting (repo : jsstring) : Message :=
  assistant ([0xD83D; 0xDD0D] ++ lit " Starting analysis of **" ++ repo ++
             lit "**... switching to Results tab.").

(** [data.reply || `❌ ${data.error}`] *)
Definition reply_text (reply error : option jsstring) : jsstring :=
  match reply with
  | Some (c :: r) => c :: r
  | _ => [0x274C] ++ lit " " ++
         match error with Some e => e | None => lit "undefined" end
  end.

(** The state in which [sendChat] calls [runAnalysis(repo)]. *)
Definition announce (render : State) (userText repo : jsstring) (st : State)
    : State :=
  setActiveTab (lit "results")
    (setMessages (fun prev => prev ++ [notice_starting repo])
       (setMessages (fun _ => messages render ++ [user userText]) st)).

(** What [sendChat(userText)] sends: the analysis request that
    [runAnalysis(repo)] makes with its default options, or the chat
    request. *)
Definition sendChat_request (render : State) (userText : jsstring) : Request :=
  match parseRepo userText with
  | Some repo => PostAnalyze repo (lit "main") 20
  | None => PostChat (messages render ++ [user userText])
  end.

Section SendChat.

(** [BACKEND_URL], fixed when the bundle is built. *)
Variable BACKEND_URL : jsstring.

Variable JSON_parse : jsstring -> option value.

Definition notice_unreachable : Message :=
  assistant ([0x274C] ++ lit " Cannot reach backend at `" ++ BACKEND_URL ++
             lit "`. Is your Codespace running?").

(** [sendChat(userText)] of the render [render].  Of [body], [e] and [r]
    only what answers the request that was sent is looked at: the
    analysis stream, or the chat reply. *)
Definition sendChat (render : State) (userText : jsstring)
    (body : list (list byte)) (e : StreamEnd) (r : Reply) (st : State) : State :=
  let newMessages := messages render ++ [user userText] in
  let st1 := setMessages (fun _ => newMessages) st in
  match parseRepo userText with
  | Some repo =>
      runAnalysis JSON_parse render repo body e
        (setActiveTab (lit "results")
           (setMessages (fun prev => prev ++ [notice_starting repo]) st1))
  | None =>
      match r with
      | ChatJson reply error =>
          setMessages (fun prev => prev ++ [assistant (reply_text reply error)]) st1
      | ChatFailed =>
          setMessages (fun prev => prev ++ [notice_unreachable]) st1
      end
  end.

End SendChat.

(** The badge of the Results tab, [analysisResults.length || null]. *)
Definition badge (st : State) : option nat :=
  match List.length (analysisResults st) with
  | O => None
  | n => Some n
  end.

End Chat.

(* ===================================================================== *)
(** * TerminalPanel.jsx                                                   *)
(* ===================================================================== *)

Module Terminal.

Import JS.
Open Scope N_scope.

(** ** Component state *)

Record Line := { type : jsstring; text : jsstring }.

(** [mode]: ["ai"] or ["raw"], the only values [setMode] is called with. *)
Inductive Mode := AI | Raw.

(** The state hooks of [TerminalPanel].  [pending] is [null] ([None]) or
    the [command] of an AI response. *)
Record State := {
  history : list Line;
  input : jsstring;
  cwd : jsstring;
  mode : Mode;
  pending : option jsstring;
  loading : bool }.

Definition setHistory (f : list Line -> list Line) (st : State) : State :=
  {| history := f (history st); input := input st; cwd := cwd st;
     mode := mode st; pending := pending st; loading := loading st |}.

Definition setInput (v : jsstring) (st : State) : State :=
  {| history := history st; input := v; cwd := cwd st;
     mode := mode st; pending := pending st; loading := loading st |}.

Definition setCwd (v : jsstring) (st : State) : State :=
  {| history := history st; input := input st; cwd := v;
     mode := mode st; pending := pending st; loading := loading st |}.

Definition setMode (v : Mode) (st : State) : State :=
  {| history := history st; input := input st; cwd := cwd st;
     mode := v; pending := pending st; loading := loading st |}.

Definition setPending (v : option jsstring) (st : State) : State :=
  {| history := history st; input := input st; cwd := cwd st;
     mode := mode st; pending := v; loading := loading st |}.

Definition setLoading (v : bool) (st : State) : State :=
  {| history := history st; input := input st; cwd := cwd st;
     mode := mode st; pending := pending st; loading := v |}.

(** [addLine(type, text)] *)
Definition addLine (ty : string) (txt : jsstring) (st : State) : State :=
  setHistory (fun h => h ++ [{| type := lit ty; text := txt |}]) st.

Definition banner : Line :=
  {| type := lit "info";
     text := lit "RepoAI Terminal " ++ [0x2014] ++
             lit " connected to your Codespace" ++ [LF] ++
             lit "Type a command or describe what you want in plain English." ++
             [LF] |}.

(** The state of the first render. *)
Definition mount : State :=
  {| history := [banner]; input := []; cwd := lit "/workspaces";
     mode := AI; pending := None; loading := false |}.

Definition QUICK_CMDS : list jsstring :=
  map lit ["ls -la"; "pwd"; "git status"; "git log --oneline -10";
           "cat package.json"; "pip list"; "python --version";
           "node --version"]%string.

(** ** The backend *)

(** A request body sent with [fetch]. *)
Inductive Request :=
| PostRun (command cwd : jsstring)      (* /terminal/run  { command, cwd } *)
| PostAI (prompt cwd : jsstring).       (* /terminal/ai   { prompt, cwd, dry_run: true } *)

(** The object [resp.json()] resolves to: the text fields of the two
    endpoints, each of which may be absent. *)
Record Data := {
  stdout : option jsstring;
  stderr : option jsstring;
  error : option jsstring;
  command : option jsstring }.

(** The outcome of [await fetch(...)] followed by [await resp.json()]:
    the data, or an exception with its [message]. *)
Inductive Response :=
| Json (data : Data)
| Failed (message : jsstring).

(** [if (field)] on an optional text field. *)
Definition present (field : option jsstring) : bool :=
  match field with
  | Some (_ :: _) => true
  | _ => false
  end.

(** [${field}] *)
Definition show (field : option jsstring) : jsstring :=
  match field with
  | Some s => s
  | None => lit "undefined"
  end.

(** An async function suspended at an [await], with the variables of its
    closure that the continuation reads. *)
Inductive Task :=
| RunCommand_run (cmd cwd : jsstring)   (* runCommand, awaiting the execution *)
| RunCommand_resolve                    (* runCommand, awaiting the [pwd] request *)
| AskAI_suggest.                        (* askAI, awaiting the suggestion *)

(** The component together with what it has in flight and what it has
    sent so far. *)
Record World := {
  ui : State;
  tasks : list Task;
  sent : list Request }.

Definition update (f : State -> State) (w : World) : World :=
  {| ui := f (ui w); tasks := tasks w; sent := sent w |}.

(** [fetch(...)] followed by [await]: the request leaves and the caller
    is suspended as [t]. *)
Definition fetch (rq : Request) (t : Task) (w : World) : World :=
  {| ui := ui w; tasks := tasks w ++ [t]; sent := sent w ++ [rq] |}.

Definition network_error (m : jsstring) : State -> State :=
  addLine "err" (lit "Network error: " ++ m).

(** ** runCommand *)

(** [runCommand(cmd)] up to its first [await]; [render] is the render
    whose closure the function belongs to. *)
Definition runCommand (render : State) (cmd : jsstring) (w : World) : World :=
  fetch (PostRun cmd (cwd render)) (RunCommand_run cmd (cwd render))
    (update (setLoading true) (update (addLine "cmd" (lit "$ " ++ cmd)) w)).

(** The directory the [pwd] request is sent with. *)
Definition resolve_dir (cwd cmd : jsstring) : jsstring :=
  let newDir := trim (slice 3 cmd) in
  if startsWith newDir (lit "/") then newDir else cwd ++ lit "/" ++ newDir.

(** [runCommand] from the response of the execution on. *)
Definition runCommand_ran (cmd cwd : jsstring) (r : Response) (w : World) : World :=
  match r with
  | Failed m => update (setLoading false) (update (network_error m) w)
  | Json data =>
      if present (error data) then
        update (setLoading false) (update (addLine "err" (show (error data))) w)
      else
        let w1 := if present (stdout data)
                  then update (addLine "out" (trimEnd (show (stdout data)))) w
                  else w in
        let w2 := if present (stderr data)
                  then update (addLine "err" (trimEnd (show (stderr data)))) w1
                  else w1 in
        if startsWith cmd (lit "cd ") then
          fetch (PostRun (lit "pwd") (resolve_dir cwd cmd)) RunCommand_resolve w2
        else update (setLoading false) w2
  end.

(** [runCommand] from the response of the [pwd] request on. *)
Definition runCommand_resolved (r : Response) (w : World) : World :=
  match r with
  | Failed m => update (setLoading false) (update (network_error m) w)
  | Json resolveData =>
      update (setLoading false)
        (if present (stdout resolveData)
         then update (setCwd (trim (show (stdout resolveData)))) w
         else w)
  end.

(** ** askAI *)

Definition askAI (render : State) (prompt : jsstring) (w : World) : World :=
  fetch (PostAI prompt (cwd render)) AskAI_suggest
    (update (setLoading true)
       (update (addLine "ai-prompt" ([0xD83E; 0xDD16] ++ lit " " ++ prompt)) w)).

Definition askAI_suggested (r : Response) (w : World) : World :=
  match r with
  | Failed m => update (setLoading false) (update (network_error m) w)
  | Json data =>
      if present (error data) then
        update (setLoading false) (update (addLine "err" (show (error data))) w)
      else
        update (setLoading false)
          (update (addLine "ai-suggest" (lit "Suggested: " ++ show (command data)))
             (update (setPending (command data)) w))
  end.

(** ** approvePending and handleSubmit *)

(** [approvePending()], where [cmd] is the [pending] of the render.  Its
    only caller is the Run button of the approval bar, which is rendered
    only while [pending] is truthy: [cmd] is a string. *)
Definition approvePending (render : State) (cmd : jsstring) (w : World) : World :=
  runCommand render cmd (update (setPending None) w).

(** The alternatives of
    [/^(ls|cd|git|cat|pwd|mkdir|pip|npm|python|node|echo|grep|find|rm|cp|mv)\b/]. *)
Definition raw_verbs : list jsstring :=
  map lit ["ls"; "cd"; "git"; "cat"; "pwd"; "mkdir"; "pip"; "npm"; "python";
           "node"; "echo"; "grep"; "find"; "rm"; "cp"; "mv"]%string.

(** [\b] after a verb, whose last character is a word character: the next
    character is absent or is not one. *)
Definition boundary_after (n : nat) (s : jsstring) : bool :=
  match nth_error s n with
  | Some c => negb (is_word c)
  | None => true
  end.

(** [looksRaw]: some alternative matches at the start and is followed by
    a word boundary. *)
Definition looksRaw (s : jsstring) : bool :=
  existsb (fun v => startsWith s v && boundary_after (List.length v) s) raw_verbs.

Definition is_empty (s : jsstring) : bool :=
  match s with [] => true | _ => false end.

(** [handleSubmit()] *)
Definition handleSubmit (render : State) (w : World) : World :=
  let text := trim (input render) in
  if is_empty text || loading render then w
  else
    let w1 := update (setPending None) (update (setInput []) w) in
    match mode render with
    | Raw => runCommand render text w1
    | AI =>
        if looksRaw text then runCommand render text w1
        else askAI render text w1
    end.

(** ** The component as a transition system *)

(** What can happen to the panel: an event of one of its controls, or the
    response to a request in flight. *)
Inductive Action :=
| Edit (s : jsstring)            (* onChange of the input *)
| Submit                         (* Enter in the input, or the Run button *)
| Approve                        (* the Run button of the approval bar *)
| Cancel                         (* the Cancel button of the approval bar *)
| Switch (m : Mode)              (* the mode buttons *)
| Quick (i : nat)                (* the i-th quick command button *)
| Respond (i : nat) (r : Response).  (* the i-th suspended call resumes *)

Fixpoint remove_nth {A} (i : nat) (l : list A) : list A :=
  match i, l with
  | _, [] => []
  | O, _ :: r => r
  | Datatypes.S j, x :: r => x :: remove_nth j r
  end.

Definition resume (t : Task) (r : Response) (w : World) : World :=
  match t with
  | RunCommand_run cmd cwd => runCommand_ran cmd cwd r w
  | RunCommand_resolve => runCommand_resolved r w
  | AskAI_suggest => askAI_suggested r w
  end.

(** One step.  Every handler runs against the latest render, [ui w]:
    React commits the updates of a handler before the next event is
    dispatched.  The controls are those of the returned JSX: the input
    has [disabled={loading}]; the approval bar with its two buttons is
    inside [{pending && (...)}], so it exists only while [pending] is
    truthy; the quick command and mode buttons are always enabled. *)
Definition step (w : World) (a : Action) : World :=
  match a with
  | Edit s => if loading (ui w) then w else update (setInput s) w
  | Submit => handleSubmit (ui w) w
  | Approve =>
      match pending (ui w) with
      | Some (c :: cmd) => approvePending (ui w) (c :: cmd) w
      | _ => w
      end
  | Cancel => if present (pending (ui w)) then update (setPending None) w else w
  | Switch m => update (setMode m) w
  | Quick i =>
      match nth_error QUICK_CMDS i with
      | Some q => update (setInput q) (update (setMode Raw) w)
      | None => w
      end
  | Respond i r =>
      match nth_error (tasks w) i with
      | Some t =>
          resume t r {| ui := ui w; tasks := remove_nth i (tasks w); sent := sent w |}
      | None => w
      end
  end.

Definition run (w : World) (actions : list Action) : World :=
  fold_left step actions w.

Definition start : World := {| ui := mount; tasks := []; sent := [] |}.

(** The states the panel can be in. *)
Definition reachable (w : World) : Prop := exists actions, w = run start actions.

(** The commands sent for execution, in order. *)
Definition executed (w : World) : list jsstring :=
  flat_map (fun rq => match rq with PostRun c _ => [c] | PostAI _ _ => [] end)
    (sent w).

(** ** Reading the panel *)

(** A world written out field by field. *)
Definition panel h i c m p l ts s : World :=
  {| ui := {| history := h; input := i; cwd := c; mode := m;
              pending := p; loading := l |};
     tasks := ts; sent := s |}.

(** At most one call is suspended; the panel is loading exactly while one
    is, and nothing is pending meanwhile. *)
Definition consistent (w : World) : bool :=
  match tasks w with
  | [] => negb (loading (ui w))
  | [_] => loading (ui w) && negb (present (pending (ui w)))
  | _ => false
  end.

(** The submitted text is run without asking the AI. *)
Definition direct (st : State) : bool :=
  match mode st with
  | Raw => true
  | AI => looksRaw (trim (input st))
  end.

(** The response carries data without an [error]. *)
Definition succeeded (r : Response) : bool :=
  match r with
  | Json data => negb (present (error data))
  | Failed _ => false
  end.

(** The response of the AI endpoint that suggests [cmd]. *)
Definition suggestion (cmd : jsstring) : Response :=
  Json {| stdout := None; stderr := None; error := None; command := Some cmd |}.

End Terminal.

(* ===================================================================== *)
(** * The files panel (src/unnamed/part_000)                              *)
(* ===================================================================== *)

Module Files.

Import JS.
Open Scope N_scope.

(** ** Component state *)

(** [view]: ["browser"], ["editor"] or ["ai-write"]. *)
Inductive View := Browser | Editor | AIWrite.

(** [{ type, text }], [type] being ["ok"] or ["err"]. *)
Record Msg := { kind : jsstring; text : jsstring }.

Definition ok (t : jsstring) : Msg := {| kind := lit "ok"; text := t |}.
Definition err (t : jsstring) : Msg := {| kind := lit "err"; text := t |}.

(** The state hooks of [FilesPanel]; [null] and [undefined] are [None]. *)
Record State := {
  view : View;
  treePath : jsstring;
  treeLines : list jsstring;
  treeLoading : bool;
  editorPath : jsstring;
  editorContent : option jsstring;
  editorLoading : bool;
  editorMsg : option Msg;
  aiPath : jsstring;
  aiInstruction : jsstring;
  aiPreview : option jsstring;
  aiOriginal : option jsstring;
  aiLoading : bool;
  aiMsg : option Msg }.

Definition setView (v : View) (st : State) : State :=
  {| view := v; treePath := treePath st; treeLines := treeLines st;
     treeLoading := treeLoading st; editorPath := editorPath st;
     editorContent := editorContent st; editorLoading := editorLoading st;
     editorMsg := editorMsg st; aiPath := aiPath st;
     aiInstruction := aiInstruction st; aiPreview := aiPreview st;
     aiOriginal := aiOriginal st; aiLoading := aiLoading st;
     aiMsg := aiMsg st |}.

Definition setTreePath (v : jsstring) (st : State) : State :=
  {| view := view st; treePath := v; treeLines := treeLines st;
     treeLoading := treeLoading st; editorPath := editorPath st;
     editorContent := editorContent st; editorLoading := editorLoading st;
     editorMsg := editorMsg st; aiPath := aiPath st;
     aiInstruction := aiInstruction st; aiPreview := aiPreview st;
     aiOriginal := aiOriginal st; aiLoading := aiLoading st;
     aiMsg := aiMsg st |}.

Definition setTreeLines (v : list jsstring) (st : State) : State :=
  {| view := view st; treePath := treePath st; treeLines := v;
     treeLoading := treeLoading st; editorPath := editorPath st;
     editorContent := editorContent st; editorLoading := editorLoading st;
     editorMsg := editorMsg st; aiPath := aiPath st;
     aiInstruction := aiInstruction st; aiPreview := aiPreview st;
     aiOriginal := aiOriginal st; aiLoading := aiLoading st;
     aiMsg := aiMsg st |}.

Definition setTreeLoading (v : bool) (st : State) : State :=
  {| view := view st; treePath := treePath st; treeLines := treeLines st;
     treeLoading := v; editorPath := editorPath st;
     editorContent := editorContent st; editorLoading := editorLoading st;
     editorMsg := editorMsg st; aiPath := aiPath st;
     aiInstruction := aiInstruction st; aiPreview := aiPreview st;
     aiOriginal := aiOriginal st; aiLoading := aiLoading st;
     aiMsg := aiMsg st |}.

Definition setEditorPath (v : jsstring) (st : State) : State :=
  {| view := view st; treePath := treePath st; treeLines := treeLines st;
     treeLoading := treeLoading st; editorPath := v;
     editorContent := editorContent st; editorLoading := editorLoading st;
     editorMsg := editorMsg st; aiPath := aiPath st;
     aiInstruction := aiInstruction st; aiPreview := aiPreview st;
     aiOriginal := aiOriginal st; aiLoading := aiLoading st;
     aiMsg := aiMsg st |}.

Definition setEditorContent (v : option jsstring) (st : State) : State :=
  {| view := view st; treePath := treePath st; treeLines := treeLines st;
     treeLoading := treeLoading st; editorPath := editorPath st;
     editorContent := v; editorLoading := editorLoading st;
     editorMsg := editorMsg st; aiPath := aiPath st;
     aiInstruction := aiInstruction st; aiPreview := aiPreview st;
     aiOriginal := aiOriginal st; aiLoading := aiLoading st;
     aiMsg := aiMsg st |}.

Definition setEditorLoading (v : bool) (st : State) : State :=
  {| view := view st; treePath := treePath st; treeLines := treeLines st;
     treeLoading := treeLoading st; editorPath := editorPath st;
     editorContent := editorContent st; editorLoading := v;
     editorMsg := editorMsg st; aiPath := aiPath st;
     aiInstruction := aiInstruction st; aiPreview := aiPreview st;
     aiOriginal := aiOriginal st; aiLoading := aiLoading st;
     aiMsg := aiMsg st |}.

Definition setEditorMsg (v : option Msg) (st : State) : State :=
  {| view := view st; treePath := treePath st; treeLines := treeLines st;
     treeLoading := treeLoading st; editorPath := editorPath st;
     editorContent := editorContent st; editorLoading := editorLoading st;
     editorMsg := v; aiPath := aiPath st; aiInstruction := aiInstruction st;
     aiPreview := aiPreview st; aiOriginal := aiOriginal st;
     aiLoading := aiLoading st; aiMsg := aiMsg st |}.

Definition setAiPath (v : jsstring) (st : State) : State :=
  {| view := view st; treePath := treePath st; treeLines := treeLines st;
     treeLoading := treeLoading st; editorPath := editorPath st;
     editorContent := editorContent st; editorLoading := editorLoading st;
     editorMsg := editorMsg st; aiPath := v;
     aiInstruction := aiInstruction st; aiPreview := aiPreview st;
     aiOriginal := aiOriginal st; aiLoading := aiLoading st;
     aiMsg := aiMsg st |}.

Definition setAiInstruction (v : jsstring) (st : State) : State :=
  {| view := view st; treePath := treePath st; treeLines := treeLines st;
     treeLoading := treeLoading st; editorPath := editorPath st;
     editorContent := editorContent st; editorLoading := editorLoading st;
     editorMsg := editorMsg st; aiPath := aiPath st; aiInstruction := v;
     aiPreview := aiPreview st; aiOriginal := aiOriginal st;
     aiLoading := aiLoading st; aiMsg := aiMsg st |}.

Definition setAiPreview (v : option jsstring) (st : State) : State :=
  {| view := view st; treePath := treePath st; treeLines := treeLines st;
     treeLoading := treeLoading st; editorPath := editorPath st;
     editorContent := editorContent st; editorLoading := editorLoading st;
     editorMsg := editorMsg st; aiPath := aiPath st;
     aiInstruction := aiInstruction st; aiPreview := v;
     aiOriginal := aiOriginal st; aiLoading := aiLoading st;
     aiMsg := aiMsg st |}.

Definition setAiOriginal (v : option jsstring) (st : State) : State :=
  {| view := view st; treePath := treePath st; treeLines := treeLines st;
     treeLoading := treeLoading st; editorPath := editorPath st;
     editorContent := editorContent st; editorLoading := editorLoading st;
     editorMsg := editorMsg st; aiPath := aiPath st;
     aiInstruction := aiInstruction st; aiPreview := aiPreview st;
     aiOriginal := v; aiLoading := aiLoading st; aiMsg := aiMsg st |}.

Definition setAiLoading (v : bool) (st : State) : State :=
  {| view := view st; treePath := treePath st; treeLines := treeLines st;
     treeLoading := treeLoading st; editorPath := editorPath st;
     editorContent := editorContent st; editorLoading := editorLoading st;
     editorMsg := editorMsg st; aiPath := aiPath st;
     aiInstruction := aiInstruction st; aiPreview := aiPreview st;
     aiOriginal := aiOriginal st; aiLoading := v; aiMsg := aiMsg st |}.

Definition setAiMsg (v : option Msg) (st : State) : State :=
  {| view := view st; treePath := treePath st; treeLines := treeLines st;
     treeLoading := treeLoading st; editorPath := editorPath st;
     editorContent := editorContent st; editorLoading := editorLoading st;
     editorMsg := editorMsg st; aiPath := aiPath st;
     aiInstruction := aiInstruction st; aiPreview := aiPreview st;
     aiOriginal := aiOriginal st; aiLoading := aiLoading st; aiMsg := v |}.

(** The state of the first render. *)
Definition mount : State :=
  {| view := Browser; treePath := lit "/workspaces"; treeLines := [];
     treeLoading := false; editorPath := []; editorContent := Some [];
     editorLoading := false; editorMsg := None; aiPath := [];
     aiInstruction := []; aiPreview := None; aiOriginal := None;
     aiLoading := false; aiMsg := None |}.

(** ** The backend *)

Inductive Request :=
| PostTree (path : jsstring) (depth : Z)                      (* /fs/tree *)
| PostRead (path : jsstring)                                  (* /file/read *)
| PostWrite (path : jsstring) (content : option jsstring)     (* /file/write *)
| PostDelete (path : jsstring)                                (* /file/delete *)
| PostAIWrite (path instruction : jsstring) (apply : bool).   (* /file/ai-write *)

(** The object [resp.json()] resolves to: the fields of the five
    endpoints; a tree answer without an error carries its [tree]. *)
Record Data := {
  error : option jsstring;
  tree : list jsstring;
  content : option jsstring;
  original : option jsstring }.

Inductive Response :=
| Json (data : Data)
| Failed (message : jsstring).

(** [if (field)] on an optional text field. *)
Definition present (field : option jsstring) : bool :=
  match field with
  | Some (_ :: _) => true
  | _ => false
  end.

(** [${field}] *)
Definition show (field : option jsstring) : jsstring :=
  match field with
  | Some s => s
  | None => lit "undefined"
  end.

Definition is_nil (s : jsstring) : bool :=
  match s with [] => true | _ => false end.

(** An async function suspended at its [await], with the variables of
    its closure that the continuation reads. *)
Inductive Task :=
| LoadTree
| LoadFile
| SaveFile (editorPath : jsstring)
| DeleteFile (editorPath : jsstring)
| GenerateAI
| ApplyAI (aiPath : jsstring).

Record World := {
  ui : State;
  tasks : list Task;
  sent : list Request }.

Definition update (f : State -> State) (w : World) : World :=
  {| ui := f (ui w); tasks := tasks w; sent := sent w |}.

Definition fetch (rq : Request) (t : Task) (w : World) : World :=
  {| ui := ui w; tasks := tasks w ++ [t]; sent := sent w ++ [rq] |}.

(** ** Tree browser *)

(** [/\.\w+$/.test(line)]: the word characters at the end are at least
    one and come after a dot. *)
Definition isFile (line : jsstring) : bool :=
  let '(ext, before) := Chat.span is_word (rev line) in
  negb (is_nil ext) &&
  match before with
  | c :: _ => c =? 0x2E
  | [] => false
  end.

Definition loadTree (render : State) (w : World) : World :=
  fetch (PostTree (treePath render) 3) LoadTree
    (update (setTreeLines []) (update (setTreeLoading true) w)).

Definition loadTree_answered (r : Response) (w : World) : World :=
  update (setTreeLoading false)
    match r with
    | Failed m =>
        update (setTreeLines [[0x274C] ++ lit " Network error: " ++ m]) w
    | Json data =>
        if present (error data) then
          update (setTreeLines [[0x274C] ++ lit " " ++ show (error data)]) w
        else update (setTreeLines (tree data)) w
    end.

(** ** File editor *)

Definition loadFile (path : jsstring) (w : World) : World :=
  fetch (PostRead path) LoadFile
    (update (setEditorMsg None) (update (setEditorLoading true) w)).

Definition loadFile_answered (r : Response) (w : World) : World :=
  update (setEditorLoading false)
    match r with
    | Failed m => update (setEditorMsg (Some (err m))) w
    | Json data =>
        if present (error data) then
          update (setEditorMsg (Some (err (show (error data))))) w
        else update (setEditorContent (content data)) w
    end.

(** [handleTreeClick(line)] *)
Definition handleTreeClick (line : jsstring) (w : World) : World :=
  if isFile line then
    loadFile line (update (setView Editor) (update (setEditorPath line) w))
  else update (setTreePath line) w.

Definition saveFile (render : State) (w : World) : World :=
  fetch (PostWrite (editorPath render) (editorContent render))
    (SaveFile (editorPath render))
    (update (setEditorMsg None) (update (setEditorLoading true) w)).

Definition saveFile_answered (editorPath : jsstring) (r : Response) (w : World)
    : World :=
  update (setEditorLoading false)
    match r with
    | Failed m => update (setEditorMsg (Some (err m))) w
    | Json data =>
        if present (error data) then
          update (setEditorMsg (Some (err (show (error data))))) w
        else
          update (setEditorMsg (Some (ok ([0x2705] ++ lit " Saved to " ++ editorPath))))
            w
    end.

(** [deleteFile()], [confirmed] being what [confirm(...)] returns. *)
Definition deleteFile (render : State) (confirmed : bool) (w : World) : World :=
  if negb confirmed then w
  else
    fetch (PostDelete (editorPath render)) (DeleteFile (editorPath render))
      (update (setEditorLoading true) w).

Definition deleteFile_answered (editorPath : jsstring) (r : Response) (w : World)
    : World :=
  update (setEditorLoading false)
    match r with
    | Failed m => update (setEditorMsg (Some (err m))) w
    | Json data =>
        if present (error data) then
          update (setEditorMsg (Some (err (show (error data))))) w
        else
          update (setEditorPath [])
            (update (setEditorContent (Some []))
               (update
                  (setEditorMsg
                     (Some (ok ([0xD83D; 0xDDD1; 0xFE0F] ++ lit " Deleted " ++
                                editorPath))))
                  w))
    end.

(** ** AI writer *)

Definition generateAI (render : State) (w : World) : World :=
  if is_nil (aiPath render) || is_nil (aiInstruction render) then w
  else
    fetch (PostAIWrite (aiPath render) (aiInstruction render) false) GenerateAI
      (update (setAiMsg None)
         (update (setAiOriginal None)
            (update (setAiPreview None) (update (setAiLoading true) w)))).

Definition generateAI_answered (r : Response) (w : World) : World :=
  update (setAiLoading false)
    match r with
    | Failed m => update (setAiMsg (Some (err m))) w
    | Json data =>
        if present (error data) then
          update (setAiMsg (Some (err (show (error data))))) w
        else
          update (setAiOriginal (original data))
            (update (setAiPreview (content data)) w)
    end.

Definition applyAI (render : State) (w : World) : World :=
  fetch (PostAIWrite (aiPath render) (aiInstruction render) true)
    (ApplyAI (aiPath render))
    (update (setAiLoading true) w).

Definition applyAI_answered (aiPath : jsstring) (r : Response) (w : World)
    : World :=
  update (setAiLoading false)
    match r with
    | Failed m => update (setAiMsg (Some (err m))) w
    | Json data =>
        if present (error data) then
          update (setAiMsg (Some (err (show (error data))))) w
        else
          update (setAiPreview None)
            (update
               (setAiMsg (Some (ok ([0x2705] ++ lit " File saved to " ++ aiPath))))
               w)
    end.

(** ** The component as a transition system *)

(** The controls of the returned JSX and the responses. *)
Inductive Action :=
| Show (v : View)                  (* the three tab buttons *)
| EditTreePath (s : jsstring)
| Browse                           (* disabled={treeLoading} *)
| ClickLine (n : nat)              (* the n-th line of the tree *)
| EditEditorPath (s : jsstring)
| EditContent (s : jsstring)
| Load                             (* disabled={editorLoading} *)
| Save                             (* disabled={editorLoading || !editorPath} *)
| Delete (confirmed : bool)        (* disabled={editorLoading || !editorPath} *)
| AIEdit                           (* AI Edit this file *)
| EditAiPath (s : jsstring)
| EditInstruction (s : jsstring)
| Generate                         (* disabled={aiLoading || !aiPath || !aiInstruction} *)
| Apply                            (* inside {aiPreview && ...}, disabled={aiLoading} *)
| Discard                          (* inside {aiPreview && ...} *)
| Respond (i : nat) (r : Response).

Definition resume (t : Task) (r : Response) (w : World) : World :=
  match t with
  | LoadTree => loadTree_answered r w
  | LoadFile => loadFile_answered r w
  | SaveFile p => saveFile_answered p r w
  | DeleteFile p => deleteFile_answered p r w
  | GenerateAI => generateAI_answered r w
  | ApplyAI p => applyAI_answered p r w
  end.

(** The controls of a view exist only while it is shown. *)
Definition showing (v : View) (w : World) : bool :=
  match v, view (ui w) with
  | Browser, Browser | Editor, Editor | AIWrite, AIWrite => true
  | _, _ => false
  end.

(** One step; every handler runs against the latest render, [ui w]. *)
Definition step (w : World) (a : Action) : World :=
  match a with
  | Show v => update (setView v) w
  | EditTreePath s => if showing Browser w then update (setTreePath s) w else w
  | Browse =>
      if showing Browser w && negb (treeLoading (ui w)) then loadTree (ui w) w
      else w
  | ClickLine n =>
      if showing Browser w then
        match nth_error (treeLines (ui w)) n with
        | Some line => if isFile line then handleTreeClick line w else w
        | None => w
        end
      else w
  | EditEditorPath s => if showing Editor w then update (setEditorPath s) w else w
  | EditContent s =>
      if showing Editor w then update (setEditorContent (Some s)) w else w
  | Load =>
      if showing Editor w && negb (editorLoading (ui w))
      then loadFile (editorPath (ui w)) w else w
  | Save =>
      if showing Editor w && negb (editorLoading (ui w) || is_nil (editorPath (ui w)))
      then saveFile (ui w) w else w
  | Delete confirmed =>
      if showing Editor w && negb (editorLoading (ui w) || is_nil (editorPath (ui w)))
      then deleteFile (ui w) confirmed w else w
  | AIEdit =>
      if showing Editor w
      then update (setView AIWrite) (update (setAiPath (editorPath (ui w))) w)
      else w
  | EditAiPath s => if showing AIWrite w then update (setAiPath s) w else w
  | EditInstruction s =>
      if showing AIWrite w then update (setAiInstruction s) w else w
  | Generate =>
      if showing AIWrite w &&
         negb (aiLoading (ui w) || is_nil (aiPath (ui w)) ||
               is_nil (aiInstruction (ui w)))
      then generateAI (ui w) w else w
  | Apply =>
      if showing AIWrite w && present (aiPreview (ui w)) && negb (aiLoading (ui w))
      then applyAI (ui w) w else w
  | Discard =>
      if showing AIWrite w && present (aiPreview (ui w))
      then update (setAiPreview None) w else w
  | Respond i r =>
      match nth_error (tasks w) i with
      | Some t =>
          resume t r
            {| ui := ui w; tasks := Terminal.remove_nth i (tasks w); sent := sent w |}
      | None => w
      end
  end.

Definition run (w : World) (actions : list Action) : World :=
  fold_left step actions w.

Definition start : World := {| ui := mount; tasks := []; sent := [] |}.

Definition reachable (w : World) : Prop := exists actions, w = run start actions.

(** ** Reading the panel *)

(** The requests that change a file. *)
Definition writes (rq : Request) : bool :=
  match rq with
  | PostWrite _ _ | PostDelete _ | PostAIWrite _ _ true => true
  | _ => false
  end.

Definition is_tree_task (t : Task) : bool :=
  match t with LoadTree => true | _ => false end.

Definition is_ai_task (t : Task) : bool :=
  match t with GenerateAI | ApplyAI _ => true | _ => false end.

(** The response carries data without an [error]. *)
Definition succeeded (r : Response) : bool :=
  match r with
  | Json data => negb (present (error data))
  | Failed _ => false
  end.

(** As many tree requests and as many AI requests in flight as the two
    loading flags say: one or none. *)
Definition counted (w : World) : bool :=
  Nat.eqb (List.length (filter is_tree_task (tasks w)))
          (if treeLoading (ui w) then 1 else 0) &&
  Nat.eqb (List.length (filter is_ai_task (tasks w)))
          (if aiLoading (ui w) then 1 else 0).

End Files.

(* ===================================================================== *)
(** * Reading streams and sessions                                        *)
(* ===================================================================== *)

Module Views.

Import JS App.
Open Scope N_scope.

(** The event a line hands to the dispatcher, if any. *)
Definition event_of (JSON_parse : jsstring -> option value) (line : jsstring)
    : list value :=
  if startsWith line (lit "data: ") then
    match JSON_parse (slice 6 line) with
    | Some event => [event]
    | None => []
    end
  else [].

Definition events_of (JSON_parse : jsstring -> option value)
    (lines : list jsstring) : list value :=
  flat_map (event_of JSON_parse) lines.

Definition is_file_result (event : value) : bool :=
  is_str (type_of event) "file_result".

Definition is_progress (event : value) : bool :=
  is_str (type_of event) "progress".

Definition is_summary (event : value) : bool :=
  is_str (type_of event) "summary".

(** The entry a [file_result] frame adds to the results. *)
Definition result_of (event : value) : FileResult :=
  {| path := prop event (lit "file"); analysis := prop event (lit "analysis") |}.

(** The progress a [progress] frame sets. *)
Definition progress_of (event : value) : Progress :=
  {| current := prop event (lit "current"); total := prop event (lit "total");
     file := prop event (lit "file") |}.

(** The dispatcher call inside [try]: a call that throws changes nothing. *)
Definition attempt {S : Type} (dispatch : value -> S -> option S) (st : S)
    (event : value) : S :=
  match dispatch event st with Some st' => st' | None => st end.

(** The line of a frame, as text. *)
Definition data_line (payload : list byte) : jsstring :=
  lit "data: " ++ TextDecoder.text_of payload.

(** A frame of the server-sent events format: the line and a blank line. *)
Definition sse_frame (payload : list byte) : list byte := frame payload ++ [x0a].

(** The string does not start with white space. *)
Definition starts_clean (s : jsstring) : Prop :=
  match s with c :: _ => is_space c = false | [] => True end.

(** The UTF-8 byte order mark. *)
Definition BOM_bytes : list byte := [xef; xbb; xbf].

End Views.

(* ===================================================================== *)
(** * Sample streams and sessions                                         *)
(* ===================================================================== *)

Module Samples.

Import JS App.
Open Scope N_scope.

Definition bytes (s : string) : list byte := list_byte_of_string s.

(** A quoted ASCII string of a JSON text. *)
Definition quoted (s : string) : list byte := [x22] ++ bytes s ++ [x22].

(** The payload [{"type":"summary","summary":"ok"}]. *)
Definition summary_payload : list byte :=
  bytes "{" ++ quoted "type" ++ bytes ":" ++ quoted "summary" ++ bytes "," ++
  quoted "summary" ++ bytes ":" ++ quoted "ok" ++ bytes "}".

(** The payload [{"type":"done","total_analyzed":2}]. *)
Definition done_payload : list byte :=
  bytes "{" ++ quoted "type" ++ bytes ":" ++ quoted "done" ++ bytes "," ++
  quoted "total_analyzed" ++ bytes ":2}".

(** The payload [{"type":"file_result","file":"é.py","analysis":"x"}],
    whose [é] is the two bytes C3 A9. *)
Definition result_payload : list byte :=
  bytes "{" ++ quoted "type" ++ bytes ":" ++ quoted "file_result" ++ bytes "," ++
  quoted "file" ++ bytes ":" ++ [x22; xc3; xa9] ++ bytes ".py" ++ [x22] ++
  bytes "," ++ quoted "analysis" ++ bytes ":" ++ quoted "x" ++ bytes "}".

Definition result_event : value :=
  Obj [(lit "type", Str (lit "file_result"));
       (lit "file", Str ([0xE9] ++ lit ".py"));
       (lit "analysis", Str (lit "x"))].

(** The payload [{"type":"heartbeat"}], a type the dispatcher does not know. *)
Definition heartbeat_payload : list byte :=
  bytes "{" ++ quoted "type" ++ bytes ":" ++ quoted "heartbeat" ++ bytes "}".

Definition heartbeat_event : value := Obj [(lit "type", Str (lit "heartbeat"))].

(** The payload [{oops], which is not JSON. *)
Definition broken_payload : list byte := bytes "{oops".

(** [JSON.parse] on the texts of the payloads above. *)
Definition parse_sample (s : jsstring) : option value :=
  if str_eqb s (TextDecoder.text_of summary_payload) then Some (summary_frame "ok")
  else if str_eqb s (TextDecoder.text_of done_payload) then Some (done_frame 2)
  else if str_eqb s (TextDecoder.text_of result_payload) then Some result_event
  else if str_eqb s (TextDecoder.text_of heartbeat_payload) then Some heartbeat_event
  else if str_eqb s (lit "null") then Some Null
  else None.

(** A response body: two frames and the beginning of a third. *)
Definition sample_body : list byte :=
  stream [result_payload; done_payload] ++ bytes "data: {".

(** The body in three chunks, the first of which ends between the two
    bytes of [é] and the second inside the second line. *)
Definition sample_chunks : list (list byte) :=
  [firstn 37 sample_body; firstn 30 (skipn 37 sample_body);
   skipn 67 sample_body].

(** A response body of two lines: a summary frame, then a done frame. *)
Definition summary_then_done : list byte := stream [summary_payload; done_payload].

Definition repo : jsstring := lit "owner/repo".

(** The first analysis after the page has loaded, once its stream has
    delivered a summary frame. *)
Definition summarized : State :=
  handle (summary mount) repo (runAnalysis_begin mount) (summary_frame "ok").

End Samples.

Unset Implicit Arguments.

(* ===================================================================== *)
(** * The decoder                                                         *)
(* ===================================================================== *)

Module DecoderFacts.
Import JS TextDecoder.
Open Scope N_scope.

Lemma utf8_bytes_app d a b :
  utf8_bytes d (a ++ b) =
  let '(d1, o1) := utf8_bytes d a in
  let '(d2, o2) := utf8_bytes d1 b in (d2, o1 ++ o2).
Proof.
  revert d; induction a as [|x a IH]; intros d; simpl.
  - destruct (utf8_bytes d b); reflexivity.
  - destruct (utf8_byte d (Byte.to_N x)) as [d1 o1].
    rewrite IH. destruct (utf8_bytes d1 a) as [d2 o2].
    destruct (utf8_bytes d2 b) as [d3 o3]. now rewrite app_assoc.
Qed.

Lemma serialize_app seen a b :
  serialize seen (a ++ b) =
  let '(s1, o1) := serialize seen a in
  let '(s2, o2) := serialize s1 b in (s2, o1 ++ o2).
Proof.
  destruct a as [|x a]; simpl.
  - destruct (serialize seen b); reflexivity.
  - destruct b as [|y b]; simpl.
    + now rewrite !app_nil_r.
    + destruct (negb seen && (x =? BOM)); reflexivity.
Qed.

Lemma utf16s_app a b : utf16s (a ++ b) = utf16s a ++ utf16s b.
Proof. apply flat_map_app. Qed.

Lemma decode_app td a b :
  decode td (a ++ b) =
  let '(td1, t1) := decode td a in
  let '(td2, t2) := decode td1 b in (td2, t1 ++ t2).
Proof.
  unfold decode. rewrite utf8_bytes_app.
  destruct (utf8_bytes (decoder td) a) as [d1 o1]. simpl.
  destruct (utf8_bytes d1 b) as [d2 o2] eqn:E1.
  rewrite serialize_app.
  destruct (serialize (BOM_seen td) o1) as [s1 p1]. simpl.
  destruct (serialize s1 o2) as [s2 p2] eqn:E2.
  cbn [decoder BOM_seen]. rewrite E1, E2. now rewrite utf16s_app.
Qed.

Lemma decode_nil td : decode td [] = (td, []).
Proof. destruct td; reflexivity. Qed.


Lemma continuation_value cp b :
  N.lor (N.shiftl cp 6) (N.land b 0x3F) = cp * 64 + b mod 64.
Proof.
  change 0x3F with (N.ones 6).
  rewrite N.land_ones, N.shiftl_mul_pow2.
  assert (H : N.land (cp * 2 ^ 6) (b mod 2 ^ 6) = 0).
  { apply N.bits_inj. intros n. rewrite N.land_spec, N.bits_0.
    destruct (N.lt_ge_cases n 6) as [Hn | Hn].
    - now rewrite N.mul_pow2_bits_low.
    - now rewrite N.mod_pow2_bits_high, andb_false_r. }
  rewrite <- N.lxor_lor, <- N.add_nocarry_lxor by exact H.
  reflexivity.
Qed.

Lemma utf8_first_ok (b : byte) : okb (fst (utf8_first (Byte.to_N b))) = true.
Proof. destruct b; reflexivity. Qed.

Lemma utf8_first_no_LF (b : byte) :
  b <> x0a -> no_LF (snd (utf8_first (Byte.to_N b))).
Proof.
  intros Hb. destruct b; try (now elim Hb);
    vm_compute; intros H; repeat (destruct H as [H | H]; [discriminate H|]); exact H.
Qed.

Lemma utf8_byte_ok d (b : byte) :
  okb d = true ->
  okb (fst (utf8_byte d (Byte.to_N b))) = true /\
  (b <> x0a -> no_LF (snd (utf8_byte d (Byte.to_N b)))).
Proof.
  intros Hd. unfold utf8_byte.
  destruct (bytes_needed d =? 0) eqn:Hn.
  { split; [apply utf8_first_ok | apply utf8_first_no_LF]. }
  destruct (negb _) eqn:Hr.
  { pose proof (utf8_first_ok b) as H1. pose proof (@utf8_first_no_LF b) as H2.
    destruct (utf8_first (Byte.to_N b)) as [d' out]. simpl in *. split; [exact H1|].
    intros Hb [H | H]; [discriminate H | exact (H2 Hb H)]. }
  apply negb_false_iff, andb_true_iff in Hr. destruct Hr as [Hlo Hhi].
  apply N.leb_le in Hlo, Hhi.
  unfold okb in Hd. rewrite Hn in Hd. simpl in Hd.
  apply andb_true_iff in Hd. destruct Hd as [Hd Hc].
  apply andb_true_iff in Hd. destruct Hd as [Hl Hu].
  apply N.leb_le in Hl, Hu.
  assert (Hge : 16 <= N.lor (N.shiftl (code_point d) 6) (N.land (Byte.to_N b) 63)).
  { rewrite continuation_value.
    pose proof (N.div_mod (Byte.to_N b) 64 ltac:(discriminate)) as Hdm.
    pose proof (N.mod_lt (Byte.to_N b) 64 ltac:(discriminate)) as Hlt.
    generalize dependent (Byte.to_N b mod 64).
    generalize dependent (Byte.to_N b / 64). intros q r Hdm Hlt.
    apply orb_true_iff in Hc. destruct Hc as [Hc | Hc]; apply N.leb_le in Hc; lia. }
  destruct (bytes_seen d + 1 =? bytes_needed d); simpl.
  - split; [reflexivity|]. intros _ [H | []]. unfold LF in H. lia.
  - split; [|intros _ []].
    unfold okb; cbn [bytes_needed lower_boundary upper_boundary code_point].
    rewrite Hn.
    replace (1 <=? _) with true by (symmetry; apply N.leb_le; lia).
    reflexivity.
Qed.

Lemma utf8_byte_LF d :
  okb d = true -> utf8_byte d (Byte.to_N x0a) = (utf8_init, utf8_flush d ++ [LF]).
Proof.
  intros Hd. unfold utf8_byte, utf8_flush.
  destruct (bytes_needed d =? 0) eqn:Hn; [reflexivity|].
  unfold okb in Hd. rewrite Hn in Hd. simpl in Hd.
  apply andb_true_iff in Hd. destruct Hd as [Hd _].
  apply andb_true_iff in Hd. destruct Hd as [Hl _]. apply N.leb_le in Hl.
  assert (Hout : (lower_boundary d <=? Byte.to_N x0a) = false).
  { apply N.leb_gt. change (Byte.to_N x0a) with 10. lia. }
  rewrite Hout. reflexivity.
Qed.

Lemma utf8_bytes_ok d bs :
  okb d = true ->
  okb (fst (utf8_bytes d bs)) = true /\
  (~ In x0a bs -> no_LF (snd (utf8_bytes d bs))).
Proof.
  revert d; induction bs as [|b bs IH]; intros d Hd; simpl.
  - split; [exact Hd | intros _ []].
  - destruct (utf8_byte_ok d b Hd) as [H1 H2].
    destruct (utf8_byte d (Byte.to_N b)) as [d1 o1]. simpl in H1, H2.
    destruct (IH d1 H1) as [H3 H4].
    destruct (utf8_bytes d1 bs) as [d2 o2]. simpl in *.
    split; [exact H3|]. intros Hnot Hin. apply in_app_or in Hin.
    destruct Hin as [Hin | Hin].
    + apply H2; [|exact Hin]. intros ->. apply Hnot. now left.
    + apply H4; [|exact Hin]. intros Hb. apply Hnot. now right.
Qed.

Lemma utf16_no_LF cp : cp <> LF -> no_LF (utf16 cp).
Proof.
  intros Hc. unfold utf16, no_LF, LF in *.
  destruct (cp <? 0x10000) eqn:E; cbn [In].
  - intros [H | []]. congruence.
  - generalize (N.shiftr (cp - 0x10000) 10), (N.land (cp - 0x10000) 0x3FF).
    intros hi lo [H | [H | []]]; lia.
Qed.

Lemma utf16s_no_LF cps : no_LF cps -> no_LF (utf16s cps).
Proof.
  unfold utf16s, no_LF. induction cps as [|c cps IH]; simpl; intros Hn; [tauto|].
  intros Hin. apply in_app_or in Hin. destruct Hin as [Hin | Hin].
  - refine (@utf16_no_LF c _ Hin). intros ->. apply Hn. now left.
  - apply IH; [|exact Hin]. intros H. apply Hn. now right.
Qed.

(** ** The decoder on small inputs *)

(** One, two, three and four byte sequences. *)
Example text_of_scalars :
  text_of [x41; xc3; xa9; xe2; x9c; x85; xf0; x9f; xa4; x96] =
  [0x41; 0xE9; 0x2705; 0xD83E; 0xDD16].
Proof. reflexivity. Qed.

(** A sequence cut short by an ASCII byte, a stray continuation byte and
    a sequence cut short by the end of the input. *)
Example text_of_ill_formed :
  text_of [xe2; x9c; x0a; x80; xc3] = [0xFFFD; 0x0A; 0xFFFD; 0xFFFD].
Proof. reflexivity. Qed.

(** A character split between two calls comes out of the second. *)
Example decode_across_chunks :
  let '(td1, t1) := decode create [x61; xe2; x9c] in
  let '(td2, t2) := decode td1 [x85; x62] in
  t1 = [0x61] /\ t2 = [0x2705; 0x62].
Proof. split; reflexivity. Qed.

(** Only the first scalar value of the stream can be dropped as a BOM. *)
Example decode_BOM :
  snd (decode create [xef; xbb; xbf; x61; xef; xbb; xbf]) = [0x61; 0xFEFF].
Proof. reflexivity. Qed.

End DecoderFacts.

(* ===================================================================== *)
(** * The decode loop                                                     *)
(* ===================================================================== *)

Module LoopFacts.
Import JS TextDecoder App DecoderFacts.
Open Scope N_scope.

Lemma last_app_nonempty {A} (l l' : list A) d :
  l' <> [] -> last (l ++ l') d = last l' d.
Proof.
  intros Hne. induction l as [|x l IH]; [reflexivity|].
  simpl. rewrite IH. destruct (l ++ l') eqn:E; [|reflexivity].
  apply app_eq_nil in E. now elim Hne.
Qed.

Lemma split_lines_nonempty s : split_lines s <> [].
Proof.
  destruct s as [|c r]; simpl; [discriminate|].
  destruct (c =? LF); [discriminate|].
  destruct (split_lines r); discriminate.
Qed.

Lemma split_lines_no_LF s : no_LF s -> split_lines s = [s].
Proof.
  unfold no_LF. induction s as [|c r IH]; simpl; intros Hn; [reflexivity|].
  destruct (c =? LF) eqn:E.
  - apply N.eqb_eq in E. exfalso. apply Hn. now left.
  - rewrite IH; [reflexivity|]. intros H. apply Hn. now right.
Qed.

Lemma split_lines_app a b :
  split_lines (a ++ b) =
  removelast (split_lines a) ++ split_lines (last (split_lines a) [] ++ b).
Proof.
  induction a as [|c r IH]; [reflexivity|].
  pose proof (split_lines_nonempty r) as Hne.
  cbn [app split_lines]. rewrite IH. clear IH.
  destruct (c =? LF) eqn:E.
  - destruct (split_lines r) as [|l ls]; [now elim Hne|]. reflexivity.
  - destruct (split_lines r) as [|l ls]; [now elim Hne|].
    destruct ls as [|l' ls].
    + cbn [removelast last app split_lines]. now rewrite E.
    + reflexivity.
Qed.

Lemma last_split_lines_no_LF s : no_LF (last (split_lines s) []).
Proof.
  unfold no_LF. induction s as [|c r IH]; simpl; [tauto|].
  pose proof (split_lines_nonempty r) as Hne.
  destruct (c =? LF) eqn:E.
  - destruct (split_lines r) as [|l ls]; [now elim Hne|]. exact IH.
  - destruct (split_lines r) as [|l ls]; [now elim Hne|].
    destruct ls as [|l' ls]; [|exact IH].
    simpl in *. intros [H | H]; [|tauto].
    apply N.eqb_neq in E. congruence.
Qed.

Lemma split_lines_line l rest :
  no_LF l -> split_lines (l ++ LF :: rest) = l :: split_lines rest.
Proof.
  unfold no_LF. induction l as [|c l IH]; simpl; intros Hn; [reflexivity|].
  destruct (c =? LF) eqn:E.
  - apply N.eqb_eq in E. exfalso. apply Hn. now left.
  - rewrite IH; [reflexivity|]. intros H. apply Hn. now right.
Qed.

Lemma split_lines_terminated ls t :
  Forall no_LF ls -> no_LF t ->
  split_lines (List.concat (map (fun l => l ++ [LF]) ls) ++ t) = ls ++ [t].
Proof.
  intros Hls Ht. induction Hls as [|l ls Hl _ IH]; simpl.
  - now apply split_lines_no_LF.
  - rewrite <- !app_assoc. simpl. rewrite (split_lines_line _ _ Hl). now rewrite IH.
Qed.

Section Loop.
Variable JSON_parse : jsstring -> option value.
Variable S : Type.
Variable dispatch : value -> S -> option S.

Let loop := read_loop JSON_parse dispatch.
Let lines_to := on_lines JSON_parse dispatch.

(** The loop over the chunks does what one pass over their
    concatenation does. *)
Lemma read_loop_concat chunks r st :
  no_LF (buffer r) ->
  loop chunks (r, st) =
  let '(td, text) := decode (decoder r) (List.concat chunks) in
  let lines := split_lines (buffer r ++ text) in
  ({| decoder := td; buffer := last lines [] |},
   lines_to (removelast lines) st).
Proof.
  subst loop lines_to. revert r st.
  induction chunks as [|c cs IH]; intros r st Hb.
  - unfold read_loop. cbn [fold_left List.concat].
    rewrite decode_nil, app_nil_r, (split_lines_no_LF _ Hb).
    destruct r; reflexivity.
  - unfold read_loop in *. cbn [fold_left List.concat].
    unfold on_chunk at 2. rewrite decode_app.
    destruct (decode (decoder r) c) as [td1 t1].
    rewrite IH by apply last_split_lines_no_LF.
    cbn [decoder buffer].
    destruct (decode td1 (List.concat cs)) as [td2 t2].
    rewrite app_assoc, (split_lines_app (buffer r ++ t1) t2).
    pose proof (split_lines_nonempty (last (split_lines (buffer r ++ t1)) [] ++ t2)) as Hne.
    rewrite removelast_app by exact Hne.
    rewrite last_app_nonempty by exact Hne.
    unfold on_lines. now rewrite fold_left_app.
Qed.
End Loop.

Lemma okb_init : okb utf8_init = true.
Proof. reflexivity. Qed.

Lemma no_newline_In bs : no_newline bs = true -> ~ In x0a bs.
Proof.
  unfold no_newline. intros H Hin.
  rewrite forallb_forall in H. specialize (H _ Hin). discriminate H.
Qed.

Lemma text_of_no_LF p : no_newline p = true -> no_LF (text_of p).
Proof.
  intros Hp. unfold text_of.
  destruct (utf8_bytes_ok utf8_init p okb_init) as [_ H].
  specialize (H (no_newline_In _ Hp)).
  destruct (utf8_bytes utf8_init p) as [d cps]. simpl in H.
  apply utf16s_no_LF. unfold no_LF in *. intros Hin.
  apply in_app_or in Hin. destruct Hin as [Hin | Hin]; [tauto|].
  unfold utf8_flush in Hin. destruct (bytes_needed d =? 0); [exact Hin|].
  destruct Hin as [Hin | []]. discriminate Hin.
Qed.

Lemma decode_frame td p :
  TextDecoder.decoder td = utf8_init ->
  decode td (frame p) =
  ({| TextDecoder.decoder := utf8_init; BOM_seen := true |},
   (lit "data: " ++ text_of p) ++ [LF]).
Proof.
  intros Htd. unfold decode, frame, text_of. rewrite Htd.
  rewrite utf8_bytes_app.
  change (utf8_bytes utf8_init DATA) with (utf8_init, lit "data: ").
  cbv iota beta. rewrite utf8_bytes_app.
  destruct (utf8_bytes_ok utf8_init p okb_init) as [Hok _].
  destruct (utf8_bytes utf8_init p) as [d cps]. simpl in Hok.
  cbn [utf8_bytes]. rewrite (utf8_byte_LF d Hok). rewrite app_nil_r.
  change (lit "data: ") with ([100; 97; 116; 97; 58; 32] : list N).
  cbn [app serialize]. rewrite andb_false_r.
  change (100 :: 97 :: 116 :: 97 :: 58 :: 32 :: cps ++ utf8_flush d ++ [LF])
    with ([100; 97; 116; 97; 58; 32] ++ cps ++ utf8_flush d ++ [LF]).
  rewrite !utf16s_app. rewrite <- !app_assoc. reflexivity.
Qed.

Lemma decode_stream ps : forall td,
  TextDecoder.decoder td = utf8_init ->
  exists td',
    TextDecoder.decoder td' = utf8_init /\
    decode td (stream ps) =
    (td', List.concat (map (fun p => (lit "data: " ++ text_of p) ++ [LF]) ps)).
Proof.
  induction ps as [|p ps IH]; intros td Htd.
  - exists td. split; [exact Htd|]. apply decode_nil.
  - unfold stream. cbn [map List.concat]. rewrite decode_app, (decode_frame _ _ Htd).
    destruct (IH {| TextDecoder.decoder := utf8_init; BOM_seen := true |} eq_refl)
      as (td' & Htd' & Heq).
    unfold stream in Heq. rewrite Heq. now exists td'.
Qed.

Lemma decode_no_LF td bs :
  TextDecoder.decoder td = utf8_init -> no_newline bs = true -> no_LF (snd (decode td bs)).
Proof.
  intros Htd Hbs. unfold decode. rewrite Htd.
  destruct (utf8_bytes_ok utf8_init bs okb_init) as [_ H].
  specialize (H (no_newline_In _ Hbs)).
  destruct (utf8_bytes utf8_init bs) as [d cps]. simpl in H.
  assert (Hs : no_LF (snd (serialize (BOM_seen td) cps))).
  { destruct cps as [|c cps]; [exact H|]. simpl.
    destruct (negb (BOM_seen td) && (c =? BOM)); [|exact H].
    intros Hin. apply H. now right. }
  destruct (serialize (BOM_seen td) cps) as [seen out]. simpl in *.
  now apply utf16s_no_LF.
Qed.

Section Delivery.
Variable JSON_parse : jsstring -> option value.
Variable S : Type.
Variable dispatch : value -> S -> option S.

Lemma on_line_data t st :
  on_line JSON_parse dispatch (lit "data: " ++ t) st =
  match JSON_parse t with
  | None => st
  | Some event => match dispatch event st with Some st' => st' | None => st end
  end.
Proof. reflexivity. Qed.

(** What the loop has done when the body was the frames of [ps]
    followed by an unterminated [tail]. *)
Lemma read_loop_frames ps tail chunks st :
  forallb no_newline ps = true -> no_newline tail = true ->
  List.concat chunks = stream ps ++ tail ->
  snd (read_loop JSON_parse dispatch chunks (reader_init, st)) =
  on_lines JSON_parse dispatch (map (fun p => lit "data: " ++ text_of p) ps) st.
Proof.
  intros Hps Htail Hcat.
  rewrite read_loop_concat by (intros []).
  rewrite Hcat, decode_app.
  destruct (decode_stream ps TextDecoder.create eq_refl) as (td1 & Htd1 & Heq).
  cbn [decoder buffer reader_init]. rewrite Heq.
  pose proof (decode_no_LF td1 tail Htd1 Htail) as Hno.
  destruct (decode td1 tail) as [td2 t2]. simpl in Hno.
  cbn [app].
  rewrite <- (map_map (fun p => lit "data: " ++ text_of p) (fun l => l ++ [LF])).
  rewrite split_lines_terminated; [| |exact Hno].
  - now rewrite removelast_last.
  - apply Forall_forall. intros l Hl. apply in_map_iff in Hl.
    destruct Hl as (p & <- & Hp).
    rewrite forallb_forall in Hps. specialize (Hps _ Hp).
    intros Hin. apply in_app_or in Hin. destruct Hin as [Hin | Hin].
    + vm_compute in Hin. repeat (destruct Hin as [Hin | Hin]; [discriminate Hin|]).
      exact Hin.
    + exact (text_of_no_LF p Hps Hin).
Qed.

Lemma on_lines_parsed ps es st :
  map (fun p => JSON_parse (text_of p)) ps = map Some es ->
  on_lines JSON_parse dispatch (map (fun p => lit "data: " ++ text_of p) ps) st =
  fold_left (fun s e => match dispatch e s with Some s' => s' | None => s end) es st.
Proof.
  revert es st. induction ps as [|p ps IH]; intros [|e es] st H; try discriminate H.
  - reflexivity.
  - injection H as He Hes. cbn [map on_lines fold_left].
    rewrite on_line_data, He. apply IH, Hes.
Qed.
End Delivery.

End LoopFacts.

(* ===================================================================== *)
(** * The analysis session                                                *)
(* ===================================================================== *)

Module SessionFacts.
Import JS TextDecoder App LoopFacts.
Open Scope N_scope.

Lemma fold_left_snoc {A} (l acc : list A) :
  fold_left (fun tr e => tr ++ [e]) l acc = acc ++ l.
Proof.
  revert acc. induction l as [|x l IH]; intros acc; simpl.
  - now rewrite app_nil_r.
  - rewrite IH, <- app_assoc. reflexivity.
Qed.

(** C3.  For payloads [ps] without a line feed whose texts parse to the
    events [es], an unterminated [tail], and any cutting of the bytes of
    the frames followed by [tail] into chunks, the loop hands exactly
    [es], in order, to the dispatcher: the session ends in the state that
    handling [es] one after the other gives.  The tail is not delivered,
    neither while reading nor when the stream ends. *)
Theorem decode_loop_delivers_frames
    (JSON_parse : jsstring -> option value)
    (ps : list (list byte)) (es : list value) (tail : list byte)
    (chunks : list (list byte)) :
  forallb no_newline ps = true ->
  no_newline tail = true ->
  map (fun p => JSON_parse (text_of p)) ps = map Some es ->
  List.concat chunks = stream ps ++ tail ->
  delivered JSON_parse chunks = es /\
  forall render repo e st,
    runAnalysis JSON_parse render repo chunks e st =
    runAnalysis_end e (handle_all (summary render) repo es (runAnalysis_begin st)).
Proof.
  intros Hps Htail Hparse Hcat. split.
  - unfold delivered.
    rewrite (read_loop_frames _ _ _ ps tail chunks _ Hps Htail Hcat).
    rewrite (on_lines_parsed _ _ _ ps es _ Hparse).
    apply (fold_left_snoc es []).
  - intros render repo e st. unfold runAnalysis.
    rewrite (read_loop_frames _ _ _ ps tail chunks _ Hps Htail Hcat).
    rewrite (on_lines_parsed _ _ _ ps es _ Hparse).
    reflexivity.
Qed.

Lemma decode_loop_delivers_frames_witness :
  delivered Samples.parse_sample Samples.sample_chunks =
  [Samples.result_event; done_frame 2].
Proof.
  apply (decode_loop_delivers_frames Samples.parse_sample
           [Samples.result_payload; Samples.done_payload]
           [Samples.result_event; done_frame 2]
           (Samples.bytes "data: {") Samples.sample_chunks);
    vm_compute; reflexivity.
Defined.

(** ** What a frame changes *)

(** Case analysis on the labels of the [switch], in source order. *)
Ltac switch_on ty :=
  repeat match goal with
         | |- context [is_str ty ?label] => destruct (is_str ty label)
         end.

Lemma handle_same_session summary repo st e :
  recording_frame e = false -> same_session (handle summary repo st e) st.
Proof.
  unfold recording_frame, type_of, prop, handle, handleSSE, same_session.
  destruct (get e (lit "type")) as [ty|]; [|now intros _].
  switch_on ty; try discriminate; intros _; cbn; try easy.
  now destruct (truthy summary).
Qed.

Lemma same_session_trans a b c :
  same_session a b -> same_session b c -> same_session a c.
Proof. unfold same_session. intuition congruence. Qed.

Lemma handle_all_same_session summary repo late st :
  forallb (fun e => negb (recording_frame e)) late = true ->
  same_session (handle_all summary repo late st) st.
Proof.
  revert st. induction late as [|e late IH]; intros st H.
  - now idtac.
  - cbn [forallb] in H. apply andb_true_iff in H. destruct H as [He Hl].
    apply negb_true_iff in He. unfold handle_all in *. cbn [fold_left].
    eapply same_session_trans; [apply IH, Hl|].
    apply handle_same_session, He.
Qed.

(** C1, as the code has it.  After a summary or an error frame has been
    handled, late frames whose type is none of [progress], [file_result]
    and [summary] (so: [done], [error], any unknown type, a value without
    a type) leave results, progress and summary as they were. *)
Theorem late_passive_frames_keep_session
    (summary : value) (repo : jsstring) (st : State) (t : value)
    (late : list value) :
  terminal_frame t = true ->
  forallb (fun e => negb (recording_frame e)) late = true ->
  same_session (handle_all summary repo late (handle summary repo st t))
               (handle summary repo st t).
Proof. intros _ H. now apply handle_all_same_session. Qed.

Lemma late_passive_frames_keep_session_witness :
  same_session
    (handle_all Null Samples.repo
       [done_frame 2; error_frame "late"; Samples.heartbeat_event; Null]
       Samples.summarized)
    Samples.summarized.
Proof.
  apply (late_passive_frames_keep_session Null Samples.repo
           (runAnalysis_begin mount) (summary_frame "ok")
           [done_frame 2; error_frame "late"; Samples.heartbeat_event; Null]);
    vm_compute; reflexivity.
Defined.

(** C1, as the specification states it, fails: a [file_result] frame that
    arrives after the summary frame is appended to the results. *)
Lemma late_file_result_is_recorded :
  terminal_frame (summary_frame "ok") = true /\
  analysisResults Samples.summarized = [] /\
  analysisResults
    (handle_all (summary mount) Samples.repo [file_result_frame "b.py" "y"]
       Samples.summarized) =
  [{| path := Str (lit "b.py"); analysis := Str (lit "y") |}] /\
  ~ same_session
      (handle_all (summary mount) Samples.repo [file_result_frame "b.py" "y"]
         Samples.summarized)
      Samples.summarized.
Proof.
  repeat split. intros (H & _). vm_compute in H. discriminate H.
Qed.

(** C2.  In the first analysis of a page ([summary] of the render is
    [null]) the stream delivers a summary frame and then a done frame: the
    done frame appends the fallback notice and so changes the messages,
    although the summary has been recorded.  The whole run, from the bytes
    of the two lines, ends with both notices in the chat. *)
Theorem done_after_summary_appends_notice :
  summary Samples.summarized = Str (lit "ok") /\
  messages (handle (summary mount) Samples.repo Samples.summarized (done_frame 2)) =
  messages Samples.summarized ++ [notice_done Samples.repo (Num 2)] /\
  messages (handle (summary mount) Samples.repo Samples.summarized (done_frame 2)) <>
  messages Samples.summarized /\
  messages (runAnalysis Samples.parse_sample mount Samples.repo
              [Samples.summary_then_done] EndOfStream mount) =
  [greeting; notice_summary Samples.repo (Str (lit "ok"));
   notice_done Samples.repo (Num 2)].
Proof.
  split; [reflexivity|]. split; [reflexivity|]. split.
  - intros H. vm_compute in H. discriminate H.
  - vm_compute. reflexivity.
Qed.

(** The same reading of the render's constant has a second effect: an
    analysis started from a render that shows the summary of an earlier
    one emits no fallback notice, although its own stream had no summary
    frame. *)
Lemma done_without_summary_is_silent (old : State) :
  truthy (summary old) = true ->
  handle (summary old) Samples.repo (runAnalysis_begin old) (done_frame 2) =
  runAnalysis_begin old.
Proof.
  intros H. unfold handle, handleSSE. cbn. now rewrite H.
Qed.

(** C4.  The five frames of the example, handled from the state in which
    an analysis starts. *)
Theorem example_session (summary0 : value) (repo : jsstring) (st : State) :
  let final :=
    handle_all summary0 repo
      [progress_frame 1 3 "a.py"; file_result_frame "a.py" "x";
       progress_frame 2 3 "b.py"; file_result_frame "b.py" "y";
       summary_frame "ok"]
      (runAnalysis_begin st) in
  analysisResults final =
    [{| path := Str (lit "a.py"); analysis := Str (lit "x") |};
     {| path := Str (lit "b.py"); analysis := Str (lit "y") |}] /\
  analyzeProgress final =
    Some {| current := Num 2; total := Num 3; file := Str (lit "b.py") |} /\
  summary final = Str (lit "ok") /\
  messages final = messages st ++ [notice_summary repo (Str (lit "ok"))] /\
  activeTab final = lit "chat".
Proof. repeat split. Qed.

(** ** Frames that are not acted upon *)

Lemma handleSSE_unknown summary event repo st :
  known_type event = false -> handle summary repo st event = st.
Proof.
  unfold known_type, handle, handleSSE.
  destruct (get event (lit "type")) as [ty|]; [|reflexivity].
  switch_on ty; try discriminate. reflexivity.
Qed.

Lemma on_line_dropped JSON_parse summary repo line st :
  dropped JSON_parse line = true ->
  on_line JSON_parse (fun event => handleSSE summary event repo) line st = st.
Proof.
  unfold dropped, on_line. intros H.
  destruct (negb (startsWith line (lit "data: "))); [reflexivity|].
  destruct (JSON_parse (slice 6 line)) as [event|]; [|reflexivity].
  apply negb_true_iff in H.
  exact (handleSSE_unknown summary event repo st H).
Qed.

(** C5.  A line whose payload does not parse, or parses to a value whose
    type is not one of the five known ones, changes nothing in the state
    of the component, and the lines around it are handled as if it had
    not been there. *)
Theorem malformed_line_is_dropped
    (JSON_parse : jsstring -> option value) (summary : value)
    (repo : jsstring) (before : list jsstring) (bad : jsstring)
    (after : list jsstring) (st : State) :
  dropped JSON_parse bad = true ->
  on_line JSON_parse (fun event => handleSSE summary event repo) bad st = st /\
  on_lines JSON_parse (fun event => handleSSE summary event repo)
    (before ++ bad :: after) st =
  on_lines JSON_parse (fun event => handleSSE summary event repo)
    (before ++ after) st.
Proof.
  intros H. split; [now apply on_line_dropped|].
  unfold on_lines. rewrite !fold_left_app. cbn [fold_left].
  now rewrite on_line_dropped.
Qed.

Lemma malformed_line_is_dropped_witness :
  on_lines Samples.parse_sample (fun event => handleSSE Null event Samples.repo)
    ([lit "data: " ++ text_of Samples.result_payload] ++
     (lit "data: " ++ text_of Samples.broken_payload) ::
     [lit "data: " ++ text_of Samples.done_payload])
    (runAnalysis_begin mount) =
  on_lines Samples.parse_sample (fun event => handleSSE Null event Samples.repo)
    ([lit "data: " ++ text_of Samples.result_payload] ++
     [lit "data: " ++ text_of Samples.done_payload])
    (runAnalysis_begin mount).
Proof.
  apply (malformed_line_is_dropped Samples.parse_sample Null Samples.repo
           [lit "data: " ++ text_of Samples.result_payload]
           (lit "data: " ++ text_of Samples.broken_payload)
           [lit "data: " ++ text_of Samples.done_payload]
           (runAnalysis_begin mount)).
  vm_compute. reflexivity.
Defined.

End SessionFacts.

(* ===================================================================== *)
(** * The terminal panel                                                  *)
(* ===================================================================== *)

Module TerminalFacts.
Import JS Terminal.
Open Scope N_scope.

#[local] Arguments startsWith : simpl never.
#[local] Arguments trim : simpl never.
#[local] Arguments trimEnd : simpl never.
#[local] Arguments looksRaw : simpl never.
#[local] Arguments lit : simpl never.

Lemma handleSubmit_rejected render w :
  is_empty (trim (input render)) || loading render = true ->
  handleSubmit render w = w.
Proof. unfold handleSubmit. now intros ->. Qed.

Lemma handleSubmit_accepted render w :
  is_empty (trim (input render)) = false -> loading render = false ->
  handleSubmit render w =
  (if direct render then runCommand render (trim (input render))
   else askAI render (trim (input render)))
    (update (setPending None) (update (setInput []) w)).
Proof.
  unfold handleSubmit, direct. intros -> ->. cbn [orb].
  destruct (mode render); [|reflexivity].
  now destruct (looksRaw (trim (input render))).
Qed.

Lemma step_consistent w a :
  consistent w = true -> consistent (step w a) = true.
Proof.
  destruct w as [[h i c m p l] ts s]. unfold consistent. simpl.
  intros H. destruct a as [x | | | | x | x | n r]; simpl.
  - destruct l; exact H.
  - unfold handleSubmit; simpl.
    destruct (is_empty (trim i)); simpl; [exact H|].
    destruct l; simpl; [exact H|].
    destruct ts as [|t ts]; [|destruct ts; discriminate H].
    destruct m; [destruct (looksRaw (trim i))|]; reflexivity.
  - destruct p as [[|ch cmd]|]; try exact H. simpl.
    destruct ts as [|t [|t' ts]]; try discriminate H.
    + reflexivity.
    + simpl in H. rewrite andb_false_r in H. discriminate H.
  - destruct (present p) eqn:Hp; simpl; [|now rewrite Hp].
    destruct ts as [|t [|t' ts]]; try exact H.
    simpl in H. rewrite andb_false_r in H. discriminate H.
  - exact H.
  - destruct (nth_error QUICK_CMDS x); exact H.
  - destruct ts as [|t [|t' ts]]; try discriminate H.
    + destruct n; exact H.
    + apply andb_true_iff in H. destruct H as [Hl Hp]. subst l.
      apply negb_true_iff in Hp.
      destruct n as [|n]; simpl; [|destruct n; simpl; now rewrite Hp].
      destruct t as [cmd cw | |]; simpl.
      * destruct r as [d | msg]; simpl; [|reflexivity].
        destruct (present (error d)); [reflexivity|].
        destruct (present (stdout d)), (present (stderr d)),
          (startsWith cmd (lit "cd ")); simpl; rewrite ?Hp; reflexivity.
      * destruct r as [d | msg]; simpl; [|reflexivity].
        destruct (present (stdout d)); reflexivity.
      * destruct r as [d | msg]; simpl; [|reflexivity].
        destruct (present (error d)); reflexivity.
Qed.

Lemma reachable_consistent w : reachable w -> consistent w = true.
Proof.
  intros [actions ->]. unfold run.
  assert (H : consistent start = true) by reflexivity.
  revert H. generalize start. induction actions as [|a l IH]; intros w H.
  - exact H.
  - cbn [fold_left]. apply IH, step_consistent, H.
Qed.


(** C7.  Approval acts on the pending command only.  With nothing
    pending the approval bar does not exist and [Approve] changes
    nothing; with [cmd] pending, one approval sends [cmd] for execution
    once and clears the gate, and a second approval changes nothing. *)
Theorem approve_is_guarded (w : World) :
  match pending (ui w) with
  | Some (c :: cmd) =>
      executed (step w Approve) = executed w ++ [c :: cmd] /\
      pending (ui (step w Approve)) = None /\
      step (step w Approve) Approve = step w Approve
  | _ =>
      step w Approve = w
  end.
Proof.
  destruct w as [[h i c m p l] ts s]. simpl.
  destruct p as [[|ch cmd]|]; simpl; try reflexivity.
  repeat split. unfold executed. simpl. rewrite flat_map_app. reflexivity.
Qed.

(** C9.  In a state the panel can reach, at most one call is suspended
    at a time, and while one is, a submission changes nothing: nothing is
    sent, nothing is suspended, the history and every other part of the
    state stay as they are.  The approval bar is absent as well. *)
Theorem submission_rejected_while_in_flight (w : World) :
  reachable w ->
  tasks w <> [] ->
  step w Submit = w /\
  step w Approve = w /\
  List.length (tasks w) = 1%nat /\
  loading (ui w) = true.
Proof.
  intros Hr Hne. apply reachable_consistent in Hr.
  destruct w as [[h i c m p l] ts s]. unfold consistent in Hr. simpl in *.
  destruct ts as [|t [|t' ts]]; try discriminate Hr; [now elim Hne|].
  apply andb_true_iff in Hr. destruct Hr as [-> Hp].
  apply negb_true_iff in Hp. repeat split.
  - apply handleSubmit_rejected. simpl. apply orb_true_r.
  - destruct p as [[|ch cmd]|]; try reflexivity. discriminate Hp.
Qed.

Lemma submission_rejected_while_in_flight_witness :
  step (run start [Edit (lit "ls -la"); Submit]) Submit =
  run start [Edit (lit "ls -la"); Submit].
Proof.
  apply (submission_rejected_while_in_flight
           (run start [Edit (lit "ls -la"); Submit])).
  - exists [Edit (lit "ls -la"); Submit]. reflexivity.
  - vm_compute. discriminate.
Defined.

(** C10.  A submission that is accepted (the input is not blank and
    nothing is loading) leaves no pending command, whatever was pending
    before and whether the text goes to the AI or is run directly; what
    it sends for execution is the submitted text or nothing; and an
    approval right after it changes nothing. *)
Theorem submission_discards_pending (w : World) :
  loading (ui w) = false ->
  is_empty (trim (input (ui w))) = false ->
  pending (ui (step w Submit)) = None /\
  executed (step w Submit) =
    executed w ++ (if direct (ui w) then [trim (input (ui w))] else []) /\
  step (step w Submit) Approve = step w Submit.
Proof.
  intros Hl He. cbn [step]. rewrite (handleSubmit_accepted _ _ He Hl).
  destruct w as [[h i c m p l] ts s]. simpl in *.
  destruct (direct _); simpl; repeat split;
    unfold executed; simpl; rewrite flat_map_app; simpl;
    now rewrite ?app_nil_r.
Qed.

Lemma submission_discards_pending_witness :
  pending
    (ui (step (run start [Edit (lit "delete the logs"); Submit;
                          Respond 0 (suggestion (lit "rm -rf logs"));
                          Edit (lit "pwd")]) Submit)) = None.
Proof.
  apply (submission_discards_pending
           (run start [Edit (lit "delete the logs"); Submit;
                       Respond 0 (suggestion (lit "rm -rf logs"));
                       Edit (lit "pwd")]));
    vm_compute; reflexivity.
Defined.

(** C8.  After any step the working directory is the one before it,
    except when the response to the [pwd] request arrives with an output:
    then it is that output, trimmed.  That request is sent exactly when
    the execution of a command starting with [cd ] has answered without
    an error; every other answer ends the call with nothing sent. *)
Theorem working_directory_follows_resolution :
  (forall w a,
     cwd (ui (step w a)) =
     match a with
     | Respond i (Json data) =>
         match nth_error (tasks w) i with
         | Some RunCommand_resolve =>
             if present (stdout data) then trim (show (stdout data))
             else cwd (ui w)
         | _ => cwd (ui w)
         end
     | _ => cwd (ui w)
     end) /\
  (forall cmd dir r w,
     cwd (ui (runCommand_ran cmd dir r w)) = cwd (ui w) /\
     if startsWith cmd (lit "cd ") && succeeded r then
       sent (runCommand_ran cmd dir r w) =
         sent w ++ [PostRun (lit "pwd") (resolve_dir dir cmd)] /\
       tasks (runCommand_ran cmd dir r w) = tasks w ++ [RunCommand_resolve]
     else
       sent (runCommand_ran cmd dir r w) = sent w /\
       tasks (runCommand_ran cmd dir r w) = tasks w).
Proof.
  split.
  - intros [[h i c m p l] ts s] a.
    destruct a as [x | | | | x | x | n r]; simpl.
    + now destruct l.
    + unfold handleSubmit; simpl.
      destruct (is_empty (trim i) || l); [reflexivity|].
      destruct m; [destruct (looksRaw (trim i))|]; reflexivity.
    + destruct p as [[|ch cmd]|]; reflexivity.
    + now destruct (present p).
    + reflexivity.
    + now destruct (nth_error QUICK_CMDS x).
    + destruct (nth_error ts n) as [t|] eqn:Ht; [|now destruct r].
      destruct t as [cmd cw | |]; simpl.
      * destruct r as [d | msg]; simpl; [|reflexivity].
        destruct (present (error d)); [reflexivity|].
        destruct (present (stdout d)), (present (stderr d)),
          (startsWith cmd (lit "cd ")); reflexivity.
      * destruct r as [d | msg]; simpl; [|reflexivity].
        now destruct (present (stdout d)).
      * destruct r as [d | msg]; simpl; [|reflexivity].
        now destruct (present (error d)).
  - intros cmd dir r [[h i c m p l] ts s].
    destruct r as [d | msg]; simpl.
    + destruct (present (error d)); simpl.
      * rewrite andb_false_r. now repeat split.
      * rewrite andb_true_r.
        destruct (present (stdout d)), (present (stderr d)),
          (startsWith cmd (lit "cd ")); now repeat split.
    + rewrite andb_false_r. now repeat split.
Qed.

(** ** The transitions of the approval gate *)

Lemma step_edit h i c m p ts s x :
  step (panel h i c m p false ts s) (Edit x) = panel h x c m p false ts s.
Proof. reflexivity. Qed.

(** A request in plain language goes to the AI and empties the gate. *)
Lemma step_submit_prompt h i c p s :
  is_empty (trim i) = false -> looksRaw (trim i) = false ->
  step (panel h i c AI p false [] s) Submit =
  panel (h ++ [{| type := lit "ai-prompt";
                  text := [0xD83E; 0xDD16] ++ lit " " ++ trim i |}])
        [] c AI None true [AskAI_suggest] (s ++ [PostAI (trim i) c]).
Proof.
  intros E R. unfold panel. cbn [step ui]. unfold handleSubmit.
  cbn [input loading mode]. rewrite E, R. reflexivity.
Qed.

(** The suggestion arrives: it becomes the pending command. *)
Lemma step_suggested h i c m p s cmd :
  step (panel h i c m p true [AskAI_suggest] s) (Respond 0 (suggestion cmd)) =
  panel (h ++ [{| type := lit "ai-suggest"; text := lit "Suggested: " ++ cmd |}])
        i c m (Some cmd) false [] s.
Proof. reflexivity. Qed.

(** The pending command is approved: it is sent, and the gate is empty. *)
Lemma step_approve h i c m b cmd s :
  step (panel h i c m (Some (b :: cmd)) false [] s) Approve =
  panel (h ++ [{| type := lit "cmd"; text := lit "$ " ++ b :: cmd |}])
        i c m None true [RunCommand_run (b :: cmd) c]
        (s ++ [PostRun (b :: cmd) c]).
Proof. reflexivity. Qed.

Lemma executed_snoc_run h i c m p l ts s cmd dir :
  executed (panel h i c m p l ts (s ++ [PostRun cmd dir])) =
  executed (panel h i c m p l ts s) ++ [cmd].
Proof. unfold executed, panel. cbn [sent]. now rewrite flat_map_app. Qed.

Lemma executed_snoc_ai h i c m p l ts s prompt dir :
  executed (panel h i c m p l ts (s ++ [PostAI prompt dir])) =
  executed (panel h i c m p l ts s).
Proof.
  unfold executed, panel. cbn [sent]. rewrite flat_map_app. apply app_nil_r.
Qed.

(** C6.  Two suggestions one after the other and then an approval: the
    second suggestion has replaced the first in the gate, and what is
    sent for execution is the second command, once.  First for the two
    continuations of [askAI] applied back to back, then for the sequence
    of events that leads the panel there. *)
Theorem newest_proposal_wins
    (w : World) (p1 p2 A B : jsstring) :
  tasks w = [] -> loading (ui w) = false -> mode (ui w) = AI ->
  is_empty (trim p1) = false -> looksRaw (trim p1) = false ->
  is_empty (trim p2) = false -> looksRaw (trim p2) = false ->
  is_empty B = false ->
  (let gate := askAI_suggested (suggestion B) (askAI_suggested (suggestion A) w) in
   pending (ui gate) = Some B /\
   executed (step gate Approve) = executed w ++ [B]) /\
  (let w' := run w [Edit p1; Submit; Respond 0 (suggestion A);
                    Edit p2; Submit; Respond 0 (suggestion B); Approve] in
   executed w' = executed w ++ [B] /\
   tasks w' = [RunCommand_run B (cwd (ui w))] /\
   pending (ui w') = None).
Proof.
  destruct w as [[h i c m p l] ts s]. cbn [tasks ui loading mode cwd].
  intros -> -> -> E1 R1 E2 R2 HB.
  destruct B as [|b B]; [discriminate HB|]. split.
  - cbv zeta. split; [reflexivity|].
    unfold executed. cbn. now rewrite flat_map_app.
  - cbv zeta. unfold run. cbn [fold_left].
    fold (panel h i c AI p false [] s).
    rewrite step_edit, (step_submit_prompt _ _ _ _ _ E1 R1), step_suggested.
    rewrite step_edit, (step_submit_prompt _ _ _ _ _ E2 R2), step_suggested.
    rewrite step_approve, executed_snoc_run, !executed_snoc_ai.
    repeat split.
Qed.

Lemma newest_proposal_wins_witness :
  executed
    (run start [Edit (lit "remove the build folder"); Submit;
                Respond 0 (suggestion (lit "rm -rf build"));
                Edit (lit "show me the files"); Submit;
                Respond 0 (suggestion (lit "ls -la")); Approve]) =
  executed start ++ [lit "ls -la"].
Proof.
  apply (newest_proposal_wins start (lit "remove the build folder")
           (lit "show me the files") (lit "rm -rf build") (lit "ls -la"));
    vm_compute; reflexivity.
Defined.

End TerminalFacts.

(* ===================================================================== *)
(** * More on the stream, the session and the chat box                    *)
(* ===================================================================== *)

Module StreamExtras.
Import JS TextDecoder App Views DecoderFacts LoopFacts.
Open Scope N_scope.

Section Loop.
Variable JSON_parse : jsstring -> option value.
Variable S : Type.
Variable dispatch : value -> S -> option S.

Lemma on_line_events line st :
  on_line JSON_parse dispatch line st =
  fold_left (attempt dispatch) (event_of JSON_parse line) st.
Proof.
  unfold on_line, event_of.
  destruct (startsWith line (lit "data: ")); [|reflexivity]. cbn [negb].
  destruct (JSON_parse (slice 6 line)); reflexivity.
Qed.

Lemma on_lines_events lines st :
  on_lines JSON_parse dispatch lines st =
  fold_left (attempt dispatch) (events_of JSON_parse lines) st.
Proof.
  revert st. induction lines as [|l lines IH]; intros st; [reflexivity|].
  unfold on_lines, events_of in *. cbn [fold_left flat_map].
  rewrite fold_left_app, <- on_line_events. apply IH.
Qed.

(** The complete lines of a body. *)
Lemma read_loop_lines chunks st :
  snd (read_loop JSON_parse dispatch chunks (reader_init, st)) =
  on_lines JSON_parse dispatch
    (removelast (split_lines (snd (decode create (List.concat chunks))))) st.
Proof.
  rewrite read_loop_concat by (intros []).
  cbn [App.decoder buffer reader_init app].
  destruct (decode create (List.concat chunks)) as [td text]. reflexivity.
Qed.

End Loop.

Lemma delivered_events JSON_parse chunks :
  delivered JSON_parse chunks =
  events_of JSON_parse
    (removelast (split_lines (snd (decode create (List.concat chunks))))).
Proof.
  unfold delivered. rewrite read_loop_lines, on_lines_events.
  generalize (events_of JSON_parse
    (removelast (split_lines (snd (decode create (List.concat chunks)))))).
  intros evs. change (fold_left (fun tr e => tr ++ [e]) evs [] = evs).
  apply (SessionFacts.fold_left_snoc evs []).
Qed.

Lemma runAnalysis_delivered JSON_parse render repo chunks e st :
  runAnalysis JSON_parse render repo chunks e st =
  runAnalysis_end e
    (handle_all (summary render) repo (delivered JSON_parse chunks)
       (runAnalysis_begin st)).
Proof.
  unfold runAnalysis. rewrite read_loop_lines, on_lines_events, delivered_events.
  reflexivity.
Qed.

(** X1.  Whatever the bytes of the body are, the events delivered are
    those of its complete lines that start with the marker and parse, in
    order, and the run ends in the state that handling them one after
    the other gives. *)
Theorem run_handles_delivered_events JSON_parse render repo chunks e st :
  delivered JSON_parse chunks =
    events_of JSON_parse
      (removelast (split_lines (snd (decode create (List.concat chunks))))) /\
  runAnalysis JSON_parse render repo chunks e st =
    runAnalysis_end e
      (handle_all (summary render) repo (delivered JSON_parse chunks)
         (runAnalysis_begin st)).
Proof. split; [apply delivered_events | apply runAnalysis_delivered]. Qed.

(** X2.  How the body is cut into chunks makes no difference. *)
Theorem chunking_is_irrelevant JSON_parse render repo chunks chunks' e st :
  List.concat chunks = List.concat chunks' ->
  delivered JSON_parse chunks = delivered JSON_parse chunks' /\
  runAnalysis JSON_parse render repo chunks e st =
  runAnalysis JSON_parse render repo chunks' e st.
Proof.
  intros H. assert (Hd : delivered JSON_parse chunks = delivered JSON_parse chunks').
  { now rewrite !delivered_events, H. }
  split; [exact Hd|]. now rewrite !runAnalysis_delivered, Hd.
Qed.


(** ** Bodies made of frames *)

Lemma data_line_no_LF p : no_newline p = true -> no_LF (data_line p).
Proof.
  intros Hp Hin. apply in_app_or in Hin. destruct Hin as [Hin | Hin].
  - vm_compute in Hin. repeat (destruct Hin as [Hin | Hin]; [discriminate Hin|]).
    exact Hin.
  - exact (text_of_no_LF p Hp Hin).
Qed.

Lemma events_of_frames JSON_parse ps es :
  map (fun p => JSON_parse (text_of p)) ps = map Some es ->
  events_of JSON_parse (map data_line ps) = es.
Proof.
  revert es. induction ps as [|p ps IH]; intros [|e es] H; try discriminate H.
  - reflexivity.
  - injection H as He Hes. unfold events_of in *. cbn [map flat_map].
    rewrite (IH es Hes). unfold event_of, data_line.
    change (startsWith (lit "data: " ++ text_of p) (lit "data: ")) with true.
    change (slice 6 (lit "data: " ++ text_of p)) with (text_of p).
    now rewrite He.
Qed.

(** The complete lines of frames followed by an unterminated tail, for a
    decoder between two characters. *)
Lemma lines_of_frames td ps tail :
  TextDecoder.decoder td = utf8_init ->
  forallb no_newline ps = true -> no_newline tail = true ->
  removelast (split_lines (snd (decode td (stream ps ++ tail)))) =
  map data_line ps.
Proof.
  intros Htd Hps Htail. rewrite decode_app.
  destruct (decode_stream ps td Htd) as (td1 & Htd1 & Heq). rewrite Heq.
  pose proof (decode_no_LF td1 tail Htd1 Htail) as Hno.
  destruct (decode td1 tail) as [td2 t2]. cbn [snd] in *.
  rewrite <- (map_map data_line (fun l => l ++ [LF])).
  rewrite split_lines_terminated; [apply removelast_last| |exact Hno].
  apply Forall_forall. intros l Hl. apply in_map_iff in Hl.
  destruct Hl as (p & <- & Hp). apply data_line_no_LF.
  rewrite forallb_forall in Hps. exact (Hps _ Hp).
Qed.

Lemma decode_BOM_bytes rest :
  decode create (BOM_bytes ++ rest) =
  decode {| TextDecoder.decoder := utf8_init; BOM_seen := true |} rest.
Proof.
  unfold decode. cbn [TextDecoder.decoder BOM_seen create].
  rewrite utf8_bytes_app.
  change (utf8_bytes utf8_init BOM_bytes) with (utf8_init, [BOM]).
  cbv iota beta. destruct (utf8_bytes utf8_init rest) as [d cps].
  destruct cps; reflexivity.
Qed.

(** X3.  A byte order mark before the first frame does not hide it. *)
Theorem byte_order_mark_is_skipped JSON_parse ps es tail chunks :
  forallb no_newline ps = true ->
  no_newline tail = true ->
  map (fun p => JSON_parse (text_of p)) ps = map Some es ->
  List.concat chunks = BOM_bytes ++ stream ps ++ tail ->
  delivered JSON_parse chunks = es.
Proof.
  intros Hps Htail Hparse Hcat.
  rewrite delivered_events, Hcat, decode_BOM_bytes.
  rewrite lines_of_frames by easy.
  now apply events_of_frames.
Qed.

Lemma decode_sse_frame td p :
  TextDecoder.decoder td = utf8_init ->
  decode td (sse_frame p) =
  ({| TextDecoder.decoder := utf8_init; BOM_seen := true |},
   (data_line p ++ [LF]) ++ ([] ++ [LF])).
Proof.
  intros Htd. unfold sse_frame. rewrite decode_app, (decode_frame _ _ Htd).
  reflexivity.
Qed.

Lemma decode_sse_stream ps : forall td,
  TextDecoder.decoder td = utf8_init ->
  exists td',
    TextDecoder.decoder td' = utf8_init /\
    decode td (List.concat (map sse_frame ps)) =
    (td', List.concat (map (fun l => l ++ [LF])
                         (flat_map (fun p => [data_line p; []]) ps))).
Proof.
  induction ps as [|p ps IH]; intros td Htd.
  - exists td. split; [exact Htd|]. apply decode_nil.
  - cbn [map List.concat flat_map app]. rewrite decode_app, (decode_sse_frame _ _ Htd).
    destruct (IH {| TextDecoder.decoder := utf8_init; BOM_seen := true |} eq_refl)
      as (td' & Htd' & Heq).
    rewrite Heq. exists td'. split; [exact Htd'|].
    now rewrite <- !app_assoc.
Qed.

Lemma events_of_sse JSON_parse ps :
  events_of JSON_parse (flat_map (fun p => [data_line p; []]) ps) =
  events_of JSON_parse (map data_line ps).
Proof.
  unfold events_of. induction ps as [|p ps IH]; [reflexivity|].
  cbn [flat_map map app]. rewrite IH.
  change (event_of JSON_parse []) with (@nil value). reflexivity.
Qed.

(** X4.  Frames that are each followed by a blank line, as server-sent
    events are written, are delivered like frames that are not. *)
Theorem blank_lines_are_skipped JSON_parse ps es tail chunks :
  forallb no_newline ps = true ->
  no_newline tail = true ->
  map (fun p => JSON_parse (text_of p)) ps = map Some es ->
  List.concat chunks = List.concat (map sse_frame ps) ++ tail ->
  delivered JSON_parse chunks = es.
Proof.
  intros Hps Htail Hparse Hcat.
  rewrite delivered_events, Hcat, decode_app.
  destruct (decode_sse_stream ps create eq_refl) as (td1 & Htd1 & Heq).
  rewrite Heq.
  pose proof (decode_no_LF td1 tail Htd1 Htail) as Hno.
  destruct (decode td1 tail) as [td2 t2]. cbn [snd] in *.
  rewrite split_lines_terminated; [| |exact Hno].
  - rewrite removelast_last, events_of_sse. now apply events_of_frames.
  - apply Forall_forall. intros l Hl. apply in_flat_map in Hl.
    destruct Hl as (p & Hp & [<- | [<- | []]]); [|intros []].
    apply data_line_no_LF. rewrite forallb_forall in Hps. exact (Hps _ Hp).
Qed.

End StreamExtras.

Module SessionExtras.
Import JS TextDecoder App Views Chat LoopFacts StreamExtras.
Open Scope N_scope.

Lemma str_eqb_eq a b : str_eqb a b = true -> a = b.
Proof.
  revert b. induction a as [|x a IH]; intros [|y b] H; try discriminate H.
  - reflexivity.
  - cbn in H. apply andb_true_iff in H. destruct H as [Hx Hab].
    apply N.eqb_eq in Hx. now rewrite Hx, (IH b Hab).
Qed.

Lemma is_str_inv v s : is_str v s = true -> v = Str (lit s).
Proof.
  destruct v; try discriminate. cbn. intros H. now rewrite (str_eqb_eq _ _ H).
Qed.

(** [event.type] when it is one of the labels. *)
Lemma type_of_inv e s :
  is_str (type_of e) s = true -> get e (lit "type") = Some (Str (lit s)).
Proof.
  unfold type_of, prop. destruct (get e (lit "type")) as [ty|]; [|discriminate].
  intros H. now rewrite (is_str_inv _ _ H).
Qed.

Lemma type_of_other e s :
  is_str (type_of e) s = false ->
  match get e (lit "type") with
  | Some ty => is_str ty s = false
  | None => True
  end.
Proof.
  unfold type_of, prop. now destruct (get e (lit "type")).
Qed.

Lemma handle_file_result summary repo st e :
  is_file_result e = true ->
  handle summary repo st e =
  setAnalysisResults (fun prev => prev ++ [result_of e]) st.
Proof.
  intros H. unfold handle, handleSSE. now rewrite (type_of_inv _ _ H).
Qed.

Lemma handle_progress summary repo st e :
  is_progress e = true ->
  handle summary repo st e = setAnalyzeProgress (Some (progress_of e)) st.
Proof.
  intros H. unfold handle, handleSSE. now rewrite (type_of_inv _ _ H).
Qed.

Lemma handle_keeps_results summary repo st e :
  is_file_result e = false ->
  analysisResults (handle summary repo st e) = analysisResults st.
Proof.
  intros H. apply type_of_other in H. unfold handle, handleSSE.
  destruct (get e (lit "type")) as [ty|]; [|reflexivity].
  rewrite H. SessionFacts.switch_on ty; try reflexivity.
  now destruct (negb (truthy summary)).
Qed.

Lemma handle_keeps_progress summary repo st e :
  is_progress e = false ->
  analyzeProgress (handle summary repo st e) = analyzeProgress st.
Proof.
  intros H. apply type_of_other in H. unfold handle, handleSSE.
  destruct (get e (lit "type")) as [ty|]; [|reflexivity].
  rewrite H. SessionFacts.switch_on ty; try reflexivity.
  now destruct (negb (truthy summary)).
Qed.

Lemma results_of_events summary repo evs st :
  analysisResults (handle_all summary repo evs st) =
  analysisResults st ++ map result_of (filter is_file_result evs).
Proof.
  revert st. induction evs as [|e evs IH]; intros st.
  - cbn. now rewrite app_nil_r.
  - unfold handle_all in *. cbn [fold_left filter]. rewrite IH.
    destruct (is_file_result e) eqn:He.
    + rewrite (handle_file_result _ _ _ _ He). cbn. now rewrite <- app_assoc.
    + now rewrite (handle_keeps_results _ _ _ _ He).
Qed.

(** X5.  The results are an append-only log of the [file_result] frames,
    in arrival order and with repeated files kept; the badge of the
    Results tab counts them. *)
Theorem results_are_the_file_results summary repo evs st :
  analysisResults (handle_all summary repo evs st) =
    analysisResults st ++ map result_of (filter is_file_result evs) /\
  badge (handle_all summary repo evs (runAnalysis_begin st)) =
    match List.length (filter is_file_result evs) with
    | O => None
    | n => Some n
    end.
Proof.
  split; [apply results_of_events|].
  unfold badge. rewrite results_of_events. cbn [analysisResults runAnalysis_begin
    setAnalyzeProgress setSummary setAnalysisResults setIsAnalyzing app].
  now rewrite length_map.
Qed.

(** X6.  The progress shown is that of the most recent [progress] frame. *)
Theorem progress_is_the_latest summary repo before p after st :
  is_progress p = true ->
  forallb (fun e => negb (is_progress e)) after = true ->
  analyzeProgress (handle_all summary repo (before ++ p :: after) st) =
  Some (progress_of p).
Proof.
  intros Hp Hafter. unfold handle_all. rewrite fold_left_app. cbn [fold_left].
  rewrite (handle_progress _ _ _ _ Hp).
  generalize (fold_left (handle summary repo) before st). intros st0.
  assert (H : forall s, analyzeProgress (fold_left (handle summary repo) after s) =
                        analyzeProgress s).
  { induction after as [|e after IH]; intros s; [reflexivity|].
    cbn [forallb] in Hafter. apply andb_true_iff in Hafter.
    destruct Hafter as [He Hafter]. apply negb_true_iff in He.
    cbn [fold_left]. rewrite (IH Hafter). now apply handle_keeps_progress. }
  now rewrite H.
Qed.

Ltac no_notice :=
  exists []; cbn; rewrite app_nil_r; split; [reflexivity|]; split; [lia|constructor].

Ltac one_notice :=
  eexists [_]; cbn; split; [reflexivity|]; split; [lia|repeat constructor].

Lemma handle_appends_messages summary repo st e :
  exists notices,
    messages (handle summary repo st e) = messages st ++ notices /\
    (List.length notices <= 1)%nat /\
    Forall (fun m => role m = lit "assistant") notices.
Proof.
  unfold handle, handleSSE.
  destruct (get e (lit "type")) as [ty|]; [|no_notice].
  SessionFacts.switch_on ty; try no_notice; try one_notice.
  destruct (negb (truthy summary)); [one_notice | no_notice].
Qed.

Lemma handle_all_appends_messages summary repo evs st :
  exists notices,
    messages (handle_all summary repo evs st) = messages st ++ notices /\
    (List.length notices <= List.length evs)%nat /\
    Forall (fun m => role m = lit "assistant") notices.
Proof.
  revert st. induction evs as [|e evs IH]; intros st.
  - no_notice.
  - unfold handle_all in *. cbn [fold_left].
    destruct (IH (handle summary repo st e)) as (n2 & H2 & L2 & F2).
    destruct (handle_appends_messages summary repo st e) as (n1 & H1 & L1 & F1).
    exists (n1 ++ n2). rewrite H2, H1, <- app_assoc. split; [reflexivity|].
    split; [rewrite length_app; cbn [List.length]; lia|].
    apply Forall_app. now split.
Qed.

Lemma runAnalysis_appends_messages JSON_parse render repo chunks e st :
  exists notices,
    messages (runAnalysis JSON_parse render repo chunks e st) =
      messages st ++ notices /\
    (List.length notices <= S (List.length (delivered JSON_parse chunks)))%nat /\
    Forall (fun m => role m = lit "assistant") notices.
Proof.
  rewrite runAnalysis_delivered.
  destruct (handle_all_appends_messages (summary render) repo
              (delivered JSON_parse chunks) (runAnalysis_begin st))
    as (n & H & L & F).
  change (messages (runAnalysis_begin st)) with (messages st) in H.
  destruct e as [|m]; cbn [runAnalysis_end runAnalysis_finally messages
    setAnalyzeProgress setIsAnalyzing setMessages].
  - exists n. rewrite H. split; [reflexivity|]. split; [lia|exact F].
  - exists (n ++ [notice_failed m]). rewrite H, <- app_assoc.
    split; [reflexivity|]. split; [rewrite length_app; cbn; lia|].
    apply Forall_app. split; [exact F|]. now repeat constructor.
Qed.


(** X8.  A run starts from nothing and always ends tidy.  Its results are
    the [file_result] frames its own body delivered, whatever an earlier
    run left; the analysing flag and the progress are cleared however the
    body ends; and a body that breaks off differs from one that ends only
    by one failure notice at the end of the chat. *)
Theorem run_starts_fresh_and_ends_tidy JSON_parse render repo chunks e st :
  let final := runAnalysis JSON_parse render repo chunks e st in
  analysisResults final =
    map result_of (filter is_file_result (delivered JSON_parse chunks)) /\
  isAnalyzing final = false /\
  analyzeProgress final = None /\
  forall m,
    runAnalysis JSON_parse render repo chunks (Rejected m) st =
    setMessages (fun prev => prev ++ [notice_failed m])
      (runAnalysis JSON_parse render repo chunks EndOfStream st).
Proof.
  cbv zeta. split; [|split; [|split]].
  - rewrite runAnalysis_delivered.
    destruct e; cbn [runAnalysis_end runAnalysis_finally analysisResults
      setAnalyzeProgress setIsAnalyzing setMessages];
      now rewrite results_of_events.
  - now rewrite runAnalysis_delivered.
  - now rewrite runAnalysis_delivered.
  - intros m. now rewrite !runAnalysis_delivered.
Qed.

(** ** The theorems above at work *)

Lemma chunking_is_irrelevant_witness :
  delivered Samples.parse_sample Samples.sample_chunks =
  delivered Samples.parse_sample [Samples.sample_body].
Proof.
  apply (StreamExtras.chunking_is_irrelevant Samples.parse_sample mount
           Samples.repo Samples.sample_chunks [Samples.sample_body]
           EndOfStream mount).
  vm_compute. reflexivity.
Defined.

Lemma byte_order_mark_is_skipped_witness :
  delivered Samples.parse_sample [BOM_bytes ++ Samples.summary_then_done] =
  [summary_frame "ok"; done_frame 2].
Proof.
  apply (StreamExtras.byte_order_mark_is_skipped Samples.parse_sample
           [Samples.summary_payload; Samples.done_payload]
           [summary_frame "ok"; done_frame 2] []
           [BOM_bytes ++ Samples.summary_then_done]);
    vm_compute; reflexivity.
Defined.

Lemma blank_lines_are_skipped_witness :
  delivered Samples.parse_sample
    [sse_frame Samples.summary_payload; sse_frame Samples.done_payload] =
  [summary_frame "ok"; done_frame 2].
Proof.
  apply (StreamExtras.blank_lines_are_skipped Samples.parse_sample
           [Samples.summary_payload; Samples.done_payload]
           [summary_frame "ok"; done_frame 2] []
           [sse_frame Samples.summary_payload; sse_frame Samples.done_payload]);
    vm_compute; reflexivity.
Defined.

Lemma progress_is_the_latest_witness :
  analyzeProgress
    (handle_all Null Samples.repo
       ([progress_frame 1 3 "a.py"] ++ progress_frame 2 3 "b.py" ::
        [file_result_frame "b.py" "y"; done_frame 2])
       (runAnalysis_begin mount)) =
  Some (progress_of (progress_frame 2 3 "b.py")).
Proof.
  apply (progress_is_the_latest Null Samples.repo [progress_frame 1 3 "a.py"]
           (progress_frame 2 3 "b.py")
           [file_result_frame "b.py" "y"; done_frame 2] (runAnalysis_begin mount));
    reflexivity.
Defined.

End SessionExtras.

Module ChatFacts.
Import JS App Views Chat.
Open Scope N_scope.

Lemma span_app f s :
  fst (span f s) ++ snd (span f s) = s.
Proof.
  induction s as [|c r IH]; [reflexivity|]. cbn.
  destruct (f c); [|reflexivity].
  destruct (span f r) as [a b]. cbn in *. now rewrite IH.
Qed.

Lemma span_all f s : forallb f (fst (span f s)) = true.
Proof.
  induction s as [|c r IH]; [reflexivity|]. cbn.
  destruct (f c) eqn:E; [|reflexivity].
  destruct (span f r) as [a b]. cbn in *. now rewrite E, IH.
Qed.

(** The longest run: a run followed by nothing, or by a character
    outside the class. *)
Lemma span_run f a b :
  forallb f a = true ->
  match b with c :: _ => f c = false | [] => True end ->
  span f (a ++ b) = (a, b).
Proof.
  intros Ha Hb. induction a as [|x a IH]; cbn in *.
  - destruct b as [|c b]; [reflexivity|]. cbn. now rewrite Hb.
  - apply andb_true_iff in Ha. destruct Ha as [Hx Ha].
    now rewrite Hx, (IH Ha).
Qed.

Lemma starts_nocase_split s p :
  starts_nocase s p = true ->
  exists kw rest,
    s = kw ++ rest /\ List.length kw = List.length p /\ starts_nocase kw p = true.
Proof.
  revert s. induction p as [|k p IH]; intros s H.
  - exists [], s. now repeat split.
  - destruct s as [|c s]; [discriminate H|]. cbn in H.
    apply andb_true_iff in H. destruct H as [Hc Hs].
    destruct (IH s Hs) as (kw & rest & -> & Hl & Hk).
    exists (c :: kw), rest. cbn. rewrite Hc, Hk, Hl. now repeat split.
Qed.

Lemma starts_nocase_app kw rest p :
  starts_nocase kw p = true -> starts_nocase (kw ++ rest) p = true.
Proof.
  revert kw. induction p as [|k p IH]; intros kw H; [reflexivity|].
  destruct kw as [|c kw]; [discriminate H|]. cbn in *.
  apply andb_true_iff in H. destruct H as [Hc Hs]. now rewrite Hc, (IH kw Hs).
Qed.

Lemma skipn_length_app {A} (a b : list A) : skipn (List.length a) (a ++ b) = b.
Proof. induction a; [reflexivity|]. exact IHa. Qed.

Lemma span_stop f s :
  match snd (span f s) with c :: _ => f c = false | [] => True end.
Proof.
  induction s as [|c r IH]; [exact I|]. cbn.
  destruct (f c) eqn:E; [|exact E].
  now destruct (span f r) as [a b].
Qed.

Lemma match_here_shaped s repo : match_here s = Some repo -> shaped s repo.
Proof.
  unfold match_here. destruct (starts_nocase s (lit "analyze")) eqn:Hk; [|discriminate].
  destruct (starts_nocase_split _ _ Hk) as (kw & r0 & -> & Hl & Hkw).
  change (List.length (lit "analyze")) with 7%nat in Hl.
  rewrite <- Hl at 1. rewrite skipn_length_app.
  pose proof (span_app is_space r0) as A1. pose proof (span_all is_space r0) as F1.
  destruct (span is_space r0) as [spaces r1]. cbn [fst snd] in *.
  destruct spaces as [|s0 spaces]; [discriminate|]. cbn [is_nil].
  pose proof (span_app is_repo_char r1) as A2.
  pose proof (span_all is_repo_char r1) as F2.
  destruct (span is_repo_char r1) as [owner r2]. cbn [fst snd] in *.
  destruct owner as [|o0 owner]; [discriminate|]. cbn [is_nil].
  destruct r2 as [|c r3]; [discriminate|].
  destruct (c =? 0x2F) eqn:Hc; [|discriminate]. apply N.eqb_eq in Hc. subst c.
  pose proof (span_app is_repo_char r3) as A3.
  pose proof (span_all is_repo_char r3) as F3.
  pose proof (span_stop is_repo_char r3) as S3.
  destruct (span is_repo_char r3) as [name rest]. cbn [fst snd] in *.
  destruct name as [|n0 name]; [discriminate|]. cbn [is_nil].
  intros [= <-].
  exists kw, (s0 :: spaces), (o0 :: owner), (n0 :: name), rest.
  subst r0 r1 r3. repeat split; try assumption; discriminate.
Qed.

Lemma repo_char_not_space c : is_repo_char c = true -> is_space c = false.
Proof.
  unfold is_repo_char, is_word, is_space. intros H.
  repeat rewrite ?orb_true_iff, ?andb_true_iff, ?N.eqb_eq, ?N.leb_le in H.
  repeat rewrite ?orb_false_iff, ?andb_false_iff, ?N.eqb_neq, ?N.leb_gt.
  lia.
Qed.

Lemma shaped_match_here s repo : shaped s repo -> match_here s = Some repo.
Proof.
  intros (kw & spaces & owner & name & rest & -> & -> & Hl & Hk & Hs & Fs &
          Ho & Fo & Hn & Fn & Hr).
  unfold match_here. rewrite (starts_nocase_app _ _ _ Hk).
  rewrite <- Hl, skipn_length_app.
  destruct owner as [|o0 owner]; [now elim Ho|].
  rewrite (span_run is_space spaces _ Fs).
  2:{ cbn in Fo |- *. apply andb_true_iff in Fo. now apply repo_char_not_space. }
  destruct spaces as [|s0 spaces]; [now elim Hs|]. cbn [is_nil].
  rewrite (span_run is_repo_char (o0 :: owner) _ Fo) by reflexivity.
  change (lit "/" ++ name ++ rest) with (0x2F :: name ++ rest).
  cbn [is_nil]. change (0x2F =? 0x2F) with true. cbv iota.
  rewrite (span_run is_repo_char name rest Fn Hr).
  destruct name; [now elim Hn|]. reflexivity.
Qed.

Lemma parseRepo_sound text repo :
  parseRepo text = Some repo ->
  exists before rest, text = before ++ rest /\ shaped rest repo.
Proof.
  induction text as [|c text IH]; cbn [parseRepo].
  - destruct (match_here []) eqn:E; [|discriminate].
    intros [= <-]. exists [], []. split; [reflexivity|]. now apply match_here_shaped.
  - destruct (match_here (c :: text)) eqn:E.
    + intros [= <-]. exists [], (c :: text). split; [reflexivity|].
      now apply match_here_shaped.
    + intros H. destruct (IH H) as (before & rest & -> & Hs).
      now exists (c :: before), rest.
Qed.

Lemma parseRepo_shaped text repo : shaped text repo -> parseRepo text = Some repo.
Proof.
  intros H. apply shaped_match_here in H.
  destruct text; cbn [parseRepo]; now rewrite H.
Qed.

(** X9.  What [parseRepo] returns was found in the text, after the
    keyword [analyze] in any mix of cases and some white space, and has
    the form owner/name over letters, digits, [_], [.] and [-], the name
    as long as it can be. *)
Theorem parseRepo_finds_a_repo text repo :
  parseRepo text = Some repo ->
  exists before rest,
    text = before ++ rest /\ shaped rest repo /\ parseRepo rest = Some repo.
Proof.
  intros H. destruct (parseRepo_sound text repo H) as (before & rest & Ht & Hs).
  exists before, rest. repeat split; try assumption. now apply parseRepo_shaped.
Qed.

Lemma parseRepo_finds_a_repo_witness :
  exists before rest,
    lit "please Analyze  facebook/react now" = before ++ rest /\
    shaped rest (lit "facebook/react") /\
    parseRepo rest = Some (lit "facebook/react").
Proof.
  apply (parseRepo_finds_a_repo (lit "please Analyze  facebook/react now")
           (lit "facebook/react")).
  reflexivity.
Defined.

(** X10.  A text that starts with the keyword, white space and
    owner/name is an analysis command for exactly that repository,
    whatever follows the name. *)
Theorem parseRepo_reads_the_command text repo :
  shaped text repo -> parseRepo text = Some repo.
Proof. apply parseRepo_shaped. Qed.

Lemma parseRepo_reads_the_command_witness :
  parseRepo (lit "ANALYZE torvalds/linux, please") = Some (lit "torvalds/linux").
Proof.
  apply parseRepo_reads_the_command.
  exists (lit "ANALYZE"), (lit " "), (lit "torvalds"), (lit "linux"),
    (lit ", please").
  repeat split; try reflexivity; discriminate.
Defined.

(** X11.  Without a slash there is no analysis command: the text goes to
    the chat backend. *)
Theorem no_slash_is_chat render text :
  ~ In 0x2F text ->
  parseRepo text = None /\
  sendChat_request render text = PostChat (messages render ++ [user text]).
Proof.
  intros Hno.
  assert (H : parseRepo text = None).
  { destruct (parseRepo text) as [repo|] eqn:E; [|reflexivity].
    destruct (parseRepo_sound _ _ E)
      as (before & rest & -> & kw & sp & ow & nm & rs & -> & _).
    elim Hno. rewrite !in_app_iff. right. right. right. right. left. now left. }
  split; [exact H|]. unfold sendChat_request. now rewrite H.
Qed.

Lemma no_slash_is_chat_witness :
  parseRepo (lit "analyze my code please") = None.
Proof.
  apply (no_slash_is_chat mount (lit "analyze my code please")).
  vm_compute. intuition discriminate.
Defined.

(** ** sendChat *)

Section SendChat.
Variable BACKEND_URL : jsstring.
Variable JSON_parse : jsstring -> option value.


(** X13.  A text that is no analysis command is sent to the chat backend
    with the whole conversation; the answer appends one assistant message
    after the user's, an absent or empty reply showing as an error line;
    the analysis, the active tab and the stream play no part. *)
Theorem chat_message_is_answered render userText body e r st :
  parseRepo userText = None ->
  let final := sendChat BACKEND_URL JSON_parse render userText body e r st in
  sendChat_request render userText = PostChat (messages render ++ [user userText]) /\
  messages final =
    messages render ++
    [user userText;
     match r with
     | ChatJson (Some (c :: reply)) _ => assistant (c :: reply)
     | ChatJson _ (Some error) => assistant ([0x274C] ++ lit " " ++ error)
     | ChatJson _ None => assistant ([0x274C] ++ lit " undefined")
     | ChatFailed => notice_unreachable BACKEND_URL
     end] /\
  same_session final st /\
  isAnalyzing final = isAnalyzing st /\
  activeTab final = activeTab st.
Proof.
  intros H. cbv zeta. unfold sendChat, sendChat_request. rewrite H.
  split; [reflexivity|].
  destruct r as [[[|c reply]|] [error|]|];
    cbn; rewrite <- app_assoc; now repeat split.
Qed.

End SendChat.


Lemma chat_message_is_answered_witness :
  sendChat_request mount (lit "hello there") =
  PostChat (messages mount ++ [user (lit "hello there")]).
Proof.
  apply (chat_message_is_answered (lit "http://localhost:8000")
           Samples.parse_sample mount (lit "hello there") [] EndOfStream
           (ChatJson (Some (lit "hi")) None) mount).
  reflexivity.
Defined.

End ChatFacts.

(* ===================================================================== *)
(** * More on the terminal panel                                          *)
(* ===================================================================== *)

Module StringFacts.
Import JS.
Open Scope N_scope.

Lemma startsWith_app p rest : startsWith (p ++ rest) p = true.
Proof.
  induction p as [|k p IH]; [reflexivity|]. cbn. now rewrite N.eqb_refl, IH.
Qed.

Lemma startsWith_split s p :
  startsWith s p = true -> exists rest, s = p ++ rest.
Proof.
  revert s. induction p as [|k p IH]; intros s H; [now exists s|].
  destruct s as [|c s]; [discriminate H|]. cbn in H.
  apply andb_true_iff in H. destruct H as [Hc Hs]. apply N.eqb_eq in Hc.
  destruct (IH s Hs) as (rest & ->). exists rest. now rewrite Hc.
Qed.

End StringFacts.

Module TerminalExtras.
Import JS Terminal TerminalFacts StringFacts.
Import Views.
Open Scope N_scope.

#[local] Arguments startsWith : simpl never.
#[local] Arguments trim : simpl never.
#[local] Arguments trimEnd : simpl never.
#[local] Arguments looksRaw : simpl never.
#[local] Arguments lit : simpl never.

Ltac open_world w := destruct w as [[h i c m p l] ts s].

(** ** The history and the requests only grow *)

Lemma step_appends_history w a :
  exists lines, history (ui (step w a)) = history (ui w) ++ lines.
Proof.
  open_world w. destruct a as [x | | | | x | x | n r]; simpl.
  - destruct l; exists []; now rewrite app_nil_r.
  - unfold handleSubmit; simpl.
    destruct (is_empty (trim i) || l); [exists []; now rewrite app_nil_r|].
    destruct m; [destruct (looksRaw (trim i))|]; simpl; now eexists.
  - destruct p as [[|ch cmd]|]; simpl;
      [exists []; now rewrite app_nil_r | now eexists | exists []; now rewrite app_nil_r].
  - destruct (present p); exists []; now rewrite app_nil_r.
  - exists []; now rewrite app_nil_r.
  - destruct (nth_error QUICK_CMDS x); exists []; now rewrite app_nil_r.
  - destruct (nth_error ts n) as [t|]; [|exists []; now rewrite app_nil_r].
    destruct t as [cmd cw | |]; simpl.
    + destruct r as [d | msg]; simpl; [|now eexists].
      destruct (present (error d)); simpl; [now eexists|].
      destruct (present (stdout d)), (present (stderr d)),
        (startsWith cmd (lit "cd ")); simpl;
        rewrite <- ?app_assoc; try (now eexists);
        exists []; now rewrite app_nil_r.
    + destruct r as [d | msg]; simpl; [|now eexists].
      destruct (present (stdout d)); exists []; now rewrite app_nil_r.
    + destruct r as [d | msg]; simpl; [|now eexists].
      destruct (present (error d)); simpl; now eexists.
Qed.

(** X14.  The history is an append-only log: whatever happens, the lines
    shown before are still there, in the same order, at the start. *)
Theorem history_is_append_only w actions :
  exists lines, history (ui (run w actions)) = history (ui w) ++ lines.
Proof.
  revert w. induction actions as [|a actions IH]; intros w.
  - exists []. cbn. now rewrite app_nil_r.
  - unfold run in *. cbn [fold_left].
    destruct (IH (step w a)) as (l2 & H2).
    destruct (step_appends_history w a) as (l1 & H1).
    exists (l1 ++ l2). now rewrite H2, H1, app_assoc.
Qed.

(** X15.  What is sent for execution, step by step: the trimmed input of
    an accepted submission that is run directly, the pending command of
    an approval, and [pwd] after a [cd] that answered without error.
    Nothing else: no suggestion of the AI is executed by arriving. *)
Theorem executed_only_on_request w a :
  executed (step w a) =
  executed w ++
  match a with
  | Submit =>
      if negb (is_empty (trim (input (ui w))) || loading (ui w)) && direct (ui w)
      then [trim (input (ui w))] else []
  | Approve =>
      match pending (ui w) with
      | Some (c :: cmd) => [c :: cmd]
      | _ => []
      end
  | Respond i r =>
      match nth_error (tasks w) i with
      | Some (RunCommand_run cmd _) =>
          if startsWith cmd (lit "cd ") && succeeded r then [lit "pwd"] else []
      | _ => []
      end
  | _ => []
  end.
Proof.
  open_world w. unfold executed.
  destruct a as [x | | | | x | x | n r]; simpl.
  - destruct l; now rewrite app_nil_r.
  - unfold handleSubmit, direct; simpl.
    destruct (is_empty (trim i) || l); simpl; [now rewrite app_nil_r|].
    destruct m; [destruct (looksRaw (trim i))|]; simpl;
      rewrite flat_map_app; reflexivity.
  - destruct p as [[|ch cmd]|]; simpl; rewrite ?flat_map_app, ?app_nil_r; reflexivity.
  - destruct (present p); now rewrite app_nil_r.
  - now rewrite app_nil_r.
  - destruct (nth_error QUICK_CMDS x); now rewrite app_nil_r.
  - destruct (nth_error ts n) as [t|]; [|now rewrite app_nil_r].
    destruct t as [cmd cw | |]; simpl.
    + destruct r as [d | msg]; simpl;
        [|rewrite andb_false_r; now rewrite app_nil_r].
      destruct (present (error d)); simpl;
        [rewrite andb_false_r; now rewrite app_nil_r|].
      rewrite andb_true_r.
      destruct (present (stdout d)), (present (stderr d)),
        (startsWith cmd (lit "cd ")); simpl;
        rewrite ?flat_map_app, ?app_nil_r; reflexivity.
    + destruct r as [d | msg]; simpl; [|now rewrite app_nil_r].
      destruct (present (stdout d)); now rewrite app_nil_r.
    + destruct r as [d | msg]; simpl; [|now rewrite app_nil_r].
      destruct (present (error d)); now rewrite app_nil_r.
Qed.

(** X16.  Cancelling empties the gate and does nothing else: nothing is
    sent, the history stays, and an approval afterwards finds nothing to
    approve.  With nothing pending there is no Cancel button. *)
Theorem cancel_discards_the_proposal w :
  match pending (ui w) with
  | Some (c :: cmd) =>
      step w Cancel = update (setPending None) w /\
      sent (step w Cancel) = sent w /\
      history (ui (step w Cancel)) = history (ui w) /\
      step (step w Cancel) Approve = step w Cancel
  | _ => step w Cancel = w
  end.
Proof.
  open_world w. destruct p as [[|ch cmd]|]; simpl; now repeat split.
Qed.

(** X17.  In every state the panel can reach, it is loading exactly
    while a request is in flight, and two responses at most bring it
    back to rest: the input is never left disabled for good. *)
Theorem loading_ends_with_the_responses w :
  reachable w ->
  (loading (ui w) = true <-> tasks w <> []) /\
  forall r1 r2,
    tasks (run w [Respond 0 r1; Respond 0 r2]) = [] /\
    loading (ui (run w [Respond 0 r1; Respond 0 r2])) = false.
Proof.
  intros Hr. apply reachable_consistent in Hr.
  open_world w. unfold consistent in Hr. simpl in Hr.
  destruct ts as [|t [|t' ts]]; try discriminate Hr.
  - apply negb_true_iff in Hr. subst l. simpl. split; [|now split].
    split; [discriminate | intros H; now elim H].
  - apply andb_true_iff in Hr. destruct Hr as [-> Hp]. simpl. split.
    + split; [discriminate | reflexivity].
    + intros r1 r2. unfold run. cbn [fold_left].
      destruct t as [cmd cw | |]; simpl.
      * destruct r1 as [d | msg]; simpl; [|now split].
        destruct (present (error d)); simpl; [now split|].
        destruct (present (stdout d)), (present (stderr d)),
          (startsWith cmd (lit "cd ")); simpl; try (now split);
          destruct r2 as [d2 | msg2]; simpl; try (now split);
          destruct (present (stdout d2)); now split.
      * destruct r1 as [d | msg]; simpl; [|now split].
        destruct (present (stdout d)); now split.
      * destruct r1 as [d | msg]; simpl; [|now split].
        destruct (present (error d)); now split.
Qed.


(** ** White space around the input *)

Lemma trimStart_clean s : starts_clean (trimStart s).
Proof.
  induction s as [|c r IH]; [exact I|]. cbn.
  destruct (is_space c) eqn:E; [exact IH | exact E].
Qed.

Lemma trimStart_id s : starts_clean s -> trimStart s = s.
Proof. destruct s as [|c r]; [reflexivity|]. cbn. now intros ->. Qed.

Lemma trimStart_blank s : forallb is_space s = true <-> trimStart s = [].
Proof.
  induction s as [|c r IH]; cbn; [tauto|].
  destruct (is_space c); cbn; [exact IH|]. split; discriminate.
Qed.

Lemma trimStart_suffix s :
  exists spaces, s = spaces ++ trimStart s /\ forallb is_space spaces = true.
Proof.
  induction s as [|c r IH]; [now exists []|]. cbn.
  destruct (is_space c) eqn:E; [|now exists []].
  destruct IH as (sp & H & F). exists (c :: sp). cbn. rewrite E, F.
  split; [now rewrite <- H | reflexivity].
Qed.

Lemma rev_trimEnd s : rev (trimEnd s) = trimStart (rev s).
Proof. unfold trimEnd. apply rev_involutive. Qed.

Lemma trimEnd_prefix s :
  exists spaces, s = trimEnd s ++ spaces /\ forallb is_space spaces = true.
Proof.
  destruct (trimStart_suffix (rev s)) as (sp & H & F).
  exists (rev sp). split.
  - unfold trimEnd. rewrite <- rev_app_distr, <- H. now rewrite rev_involutive.
  - rewrite forallb_forall in *. intros x Hx. apply F. now apply in_rev.
Qed.

Lemma trimEnd_clean s : starts_clean s -> starts_clean (trimEnd s).
Proof.
  intros Hs. destruct (trimEnd_prefix s) as (sp & H & _).
  destruct (trimEnd s) as [|c r]; [exact I|]. rewrite H in Hs. exact Hs.
Qed.

Lemma trim_starts_clean s : starts_clean (trim s).
Proof. apply trimEnd_clean, trimStart_clean. Qed.

Lemma trim_ends_clean s : starts_clean (rev (trim s)).
Proof. unfold trim. rewrite rev_trimEnd. apply trimStart_clean. Qed.

Lemma trim_trim s : trim (trim s) = trim s.
Proof.
  unfold trim at 1. rewrite (trimStart_id _ (trim_starts_clean s)).
  unfold trimEnd. rewrite (trimStart_id _ (trim_ends_clean s)).
  apply rev_involutive.
Qed.

Lemma trim_blank s : forallb is_space s = true <-> trim s = [].
Proof.
  split.
  - intros H. apply trimStart_blank in H. unfold trim. now rewrite H.
  - intros H. unfold trim in H.
    destruct (trimEnd_prefix (trimStart s)) as (sp & Hp & F).
    rewrite H in Hp. cbn in Hp.
    pose proof (trimStart_clean s) as Hc. rewrite Hp in Hc.
    destruct sp as [|c sp].
    + apply trimStart_blank. exact Hp.
    + cbn in Hc, F. rewrite Hc in F. discriminate F.
Qed.

(** X18.  A submission of white space only does nothing.  Any other
    submission, when nothing is loading, sends one request whose text is
    the input without the white space around it: trimming it again
    changes nothing, and it neither starts nor ends with white space. *)
Theorem submitted_text_is_trimmed w :
  loading (ui w) = false ->
  let text := trim (input (ui w)) in
  if forallb is_space (input (ui w)) then step w Submit = w
  else
    (sent (step w Submit) = sent w ++ [PostRun text (cwd (ui w))] \/
     sent (step w Submit) = sent w ++ [PostAI text (cwd (ui w))]) /\
    text <> [] /\ trim text = text /\
    starts_clean text /\ starts_clean (rev text).
Proof.
  intros Hl. cbv zeta. destruct (forallb is_space (input (ui w))) eqn:E.
  - apply trim_blank in E. cbn [step]. apply handleSubmit_rejected.
    now rewrite E.
  - assert (Ht : trim (input (ui w)) <> []).
    { intros H. apply trim_blank in H. rewrite H in E. discriminate E. }
    split; [|split; [exact Ht|split; [apply trim_trim|split;
      [apply trim_starts_clean | apply trim_ends_clean]]]].
    cbn [step]. rewrite handleSubmit_accepted; [|now destruct (trim (input (ui w)))|exact Hl].
    open_world w. destruct (direct _); [left | right]; reflexivity.
Qed.

(** ** The classification of the input *)

Lemma boundary_after_app v rest :
  boundary_after (List.length v) (v ++ rest) =
  match rest with c :: _ => negb (is_word c) | [] => true end.
Proof.
  unfold boundary_after. rewrite nth_error_app2, Nat.sub_diag by lia.
  now destruct rest.
Qed.

Lemma looksRaw_direction s :
  (exists v rest,
     In v raw_verbs /\ s = v ++ rest /\
     match rest with c :: _ => is_word c = false | [] => True end) ->
  looksRaw s = true.
Proof.
  unfold looksRaw. rewrite existsb_exists.
  intros (v & rest & Hv & -> & Hr). exists v. split; [exact Hv|].
  rewrite startsWith_app, boundary_after_app. destruct rest; [reflexivity|].
  cbn. now rewrite Hr.
Qed.

(** X19.  A text is run without asking the AI exactly when it starts with
    one of the sixteen verbs and the verb is not followed by a letter, a
    digit or an underscore. *)
Theorem looksRaw_spec s :
  looksRaw s = true <->
  exists v rest,
    In v raw_verbs /\ s = v ++ rest /\
    match rest with c :: _ => is_word c = false | [] => True end.
Proof.
  unfold looksRaw. rewrite existsb_exists. split.
  - intros (v & Hv & H). apply andb_true_iff in H. destruct H as [Hp Hb].
    destruct (startsWith_split _ _ Hp) as (rest & ->).
    rewrite boundary_after_app in Hb. exists v, rest.
    repeat split; [exact Hv|]. destruct rest; [exact I|].
    now apply negb_true_iff.
  - intros (v & rest & Hv & -> & Hr). exists v. split; [exact Hv|].
    rewrite startsWith_app, boundary_after_app. destruct rest; [reflexivity|].
    cbn. now rewrite Hr.
Qed.


(** ** Going through the panel *)

(** A text that is run directly, from a panel at rest. *)
Lemma step_submit_direct h i c m p s :
  is_empty (trim i) = false ->
  match m with Raw => true | AI => looksRaw (trim i) end = true ->
  step (panel h i c m p false [] s) Submit =
  panel (h ++ [{| type := lit "cmd"; text := lit "$ " ++ trim i |}])
        [] c m None true [RunCommand_run (trim i) c] (s ++ [PostRun (trim i) c]).
Proof.
  intros E D. unfold panel. cbn [step ui]. unfold handleSubmit.
  cbn [input loading mode]. rewrite E. cbn [orb].
  destruct m; [rewrite D|]; reflexivity.
Qed.

(** A [cd] that answered without error: the [pwd] request leaves. *)
Lemma step_ran_cd h i c m p s cmd dir r :
  startsWith cmd (lit "cd ") = true -> succeeded r = true ->
  exists h',
    step (panel h i c m p true [RunCommand_run cmd dir] s) (Respond 0 r) =
    panel h' i c m p true [RunCommand_resolve]
          (s ++ [PostRun (lit "pwd") (resolve_dir dir cmd)]).
Proof.
  intros Hcd Hr. destruct r as [d | msg]; [|discriminate Hr].
  cbn in Hr. apply negb_true_iff in Hr. unfold panel. simpl. rewrite Hr, Hcd.
  destruct (present (stdout d)), (present (stderr d)); simpl; now eexists.
Qed.

(** The [pwd] request answered with an output. *)
Lemma step_resolved h i c m p s d :
  present (stdout d) = true ->
  step (panel h i c m p true [RunCommand_resolve] s) (Respond 0 (Json d)) =
  panel h i (trim (show (stdout d))) m p false [] s.
Proof. intros H. unfold panel. simpl. now rewrite H. Qed.

Lemma cd_is_direct cmd : startsWith cmd (lit "cd ") = true -> looksRaw cmd = true.
Proof.
  intros H. destruct (startsWith_split _ _ H) as (rest & ->).
  apply looksRaw_direction. exists (lit "cd"), (lit " " ++ rest).
  split; [|split; reflexivity].
  unfold raw_verbs. cbn [map In]. tauto.
Qed.

(** X21.  A [cd] and the command after it.  The [cd] is sent with the
    old directory, then [pwd] with the directory the client puts
    together; the answer to [pwd], trimmed, becomes the working
    directory, and the next command is sent with it. *)
Theorem next_command_runs_in_the_new_directory
    (w : World) (i1 i2 : jsstring) (r1 : Response) (d2 : Data) :
  tasks w = [] -> loading (ui w) = false ->
  startsWith (trim i1) (lit "cd ") = true ->
  succeeded r1 = true ->
  present (stdout d2) = true ->
  is_empty (trim i2) = false ->
  match mode (ui w) with Raw => true | AI => looksRaw (trim i2) end = true ->
  let w' := run w [Edit i1; Submit; Respond 0 r1; Respond 0 (Json d2);
                   Edit i2; Submit] in
  sent w' =
    sent w ++
    [PostRun (trim i1) (cwd (ui w));
     PostRun (lit "pwd") (resolve_dir (cwd (ui w)) (trim i1));
     PostRun (trim i2) (trim (show (stdout d2)))] /\
  cwd (ui w') = trim (show (stdout d2)).
Proof.
  open_world w. cbn [tasks ui loading mode cwd sent].
  intros -> -> Hcd Hr1 Hd2 E2 D2. cbv zeta. unfold run. cbn [fold_left].
  fold (panel h i c m p false [] s).
  assert (E1 : is_empty (trim i1) = false).
  { destruct (startsWith_split _ _ Hcd) as (rest & ->). reflexivity. }
  assert (D1 : match m with Raw => true | AI => looksRaw (trim i1) end = true).
  { destruct m; [now apply cd_is_direct | reflexivity]. }
  rewrite step_edit, (step_submit_direct _ _ _ _ _ _ E1 D1).
  destruct (step_ran_cd (h ++ [{| type := lit "cmd"; text := lit "$ " ++ trim i1 |}])
              [] c m None (s ++ [PostRun (trim i1) c]) (trim i1) c r1 Hcd Hr1)
    as (h' & ->).
  rewrite (step_resolved _ _ _ _ _ _ _ Hd2), step_edit.
  rewrite (step_submit_direct _ _ _ _ _ _ E2 D2).
  unfold panel. cbn [sent ui cwd]. rewrite <- !app_assoc. now split.
Qed.

Lemma step_quick h i c m p l ts s n q :
  nth_error QUICK_CMDS n = Some q ->
  step (panel h i c m p l ts s) (Quick n) = panel h q c Raw p l ts s.
Proof. intros H. unfold panel. cbn [step]. now rewrite H. Qed.

Lemma quick_cmds_clean q :
  In q QUICK_CMDS -> trim q = q /\ is_empty q = false.
Proof.
  unfold QUICK_CMDS. cbn [map In].
  intros H. repeat (destruct H as [<- | H]; [now vm_compute|]). now elim H.
Qed.

(** X20.  A quick command button and then Run: the command of the button
    is sent for execution as it is, in raw mode, whatever the mode was and
    whatever was pending, and the gate is empty afterwards. *)
Theorem quick_command_runs_as_is (w : World) (n : nat) (q : jsstring) :
  nth_error QUICK_CMDS n = Some q ->
  tasks w = [] -> loading (ui w) = false ->
  let w' := run w [Quick n; Submit] in
  sent w' = sent w ++ [PostRun q (cwd (ui w))] /\
  executed w' = executed w ++ [q] /\
  pending (ui w') = None /\
  mode (ui w') = Raw.
Proof.
  intros Hq. destruct (quick_cmds_clean q (nth_error_In _ _ Hq)) as [Ht He].
  open_world w. cbn [tasks ui loading cwd sent].
  intros -> ->. cbv zeta. unfold run. cbn [fold_left].
  fold (panel h i c m p false [] s).
  rewrite (step_quick _ _ _ _ _ _ _ _ _ _ Hq).
  rewrite step_submit_direct by (rewrite ?Ht; easy).
  rewrite Ht, executed_snoc_run. now repeat split.
Qed.


(** ** The theorems above at work *)

Lemma loading_ends_with_the_responses_witness :
  tasks (run (run start [Edit (lit "cd src"); Submit])
           [Respond 0 (Json {| stdout := None; stderr := None; error := None;
                               command := None |});
            Respond 0 (Failed (lit "Failed to fetch"))]) = [].
Proof.
  apply (loading_ends_with_the_responses (run start [Edit (lit "cd src"); Submit])).
  exists [Edit (lit "cd src"); Submit]. reflexivity.
Defined.

Lemma submitted_text_is_trimmed_witness :
  if forallb is_space (input (ui (run start [Edit (lit "  git status ")])))
  then step (run start [Edit (lit "  git status ")]) Submit =
       run start [Edit (lit "  git status ")]
  else
    (sent (step (run start [Edit (lit "  git status ")]) Submit) =
       sent (run start [Edit (lit "  git status ")]) ++
       [PostRun (trim (input (ui (run start [Edit (lit "  git status ")]))))
                (cwd (ui (run start [Edit (lit "  git status ")])))] \/
     sent (step (run start [Edit (lit "  git status ")]) Submit) =
       sent (run start [Edit (lit "  git status ")]) ++
       [PostAI (trim (input (ui (run start [Edit (lit "  git status ")]))))
               (cwd (ui (run start [Edit (lit "  git status ")])))]) /\
    trim (input (ui (run start [Edit (lit "  git status ")]))) <> [] /\
    trim (trim (input (ui (run start [Edit (lit "  git status ")])))) =
      trim (input (ui (run start [Edit (lit "  git status ")]))) /\
    starts_clean (trim (input (ui (run start [Edit (lit "  git status ")])))) /\
    starts_clean (rev (trim (input (ui (run start [Edit (lit "  git status ")]))))).
Proof.
  apply (submitted_text_is_trimmed (run start [Edit (lit "  git status ")])).
  reflexivity.
Defined.

Lemma next_command_runs_in_the_new_directory_witness :
  cwd (ui (run start
             [Edit (lit "cd src"); Submit;
              Respond 0 (Json {| stdout := None; stderr := None; error := None;
                                 command := None |});
              Respond 0 (Json {| stdout := Some (lit "/workspaces/src" ++ [LF]);
                                 stderr := None; error := None; command := None |});
              Edit (lit "ls"); Submit])) =
  trim (lit "/workspaces/src" ++ [LF]).
Proof.
  apply (next_command_runs_in_the_new_directory start (lit "cd src") (lit "ls")
           (Json {| stdout := None; stderr := None; error := None; command := None |})
           {| stdout := Some (lit "/workspaces/src" ++ [LF]); stderr := None;
              error := None; command := None |});
    vm_compute; reflexivity.
Defined.

Lemma quick_command_runs_as_is_witness :
  executed (run start [Quick 2; Submit]) = executed start ++ [lit "git status"].
Proof.
  apply (quick_command_runs_as_is start 2 (lit "git status")); reflexivity.
Defined.

End TerminalExtras.

(* ===================================================================== *)
(** * The files panel                                                     *)
(* ===================================================================== *)

Module FilesFacts.
Import JS Files.
Open Scope N_scope.

(** ** Which lines are files *)

Lemma forallb_rev {A} (f : A -> bool) l : forallb f (rev l) = forallb f l.
Proof.
  destruct (forallb f l) eqn:E.
  - rewrite forallb_forall in *. intros x Hx. apply E. now apply in_rev.
  - destruct (forallb f (rev l)) eqn:E'; [|reflexivity].
    rewrite <- E. symmetry. rewrite forallb_forall in *.
    intros x Hx. apply E'. now apply in_rev in Hx.
Qed.

(** X22.  A line of the tree counts as a file exactly when it ends with a
    dot followed by one or more letters, digits or underscores. *)
Theorem isFile_spec line :
  isFile line = true <->
  exists before ext,
    line = before ++ [0x2E] ++ ext /\ ext <> [] /\ forallb is_word ext = true.
Proof.
  unfold isFile. split.
  - pose proof (ChatFacts.span_app is_word (rev line)) as A.
    pose proof (ChatFacts.span_all is_word (rev line)) as F.
    destruct (Chat.span is_word (rev line)) as [ext rest]. cbn [fst snd] in *.
    intros H. apply andb_true_iff in H. destruct H as [He Hd].
    destruct rest as [|c rest]; [discriminate Hd|]. apply N.eqb_eq in Hd. subst c.
    exists (rev rest), (rev ext). repeat split.
    + rewrite <- (rev_involutive line), <- A, rev_app_distr. cbn [rev].
      now rewrite <- app_assoc.
    + destruct ext; [discriminate He|]. cbn. now destruct (rev ext).
    + now rewrite forallb_rev.
  - intros (before & ext & -> & Hne & F).
    rewrite !rev_app_distr. cbn [rev app]. rewrite <- app_assoc. cbn [app].
    rewrite (ChatFacts.span_run is_word (rev ext) (0x2E :: rev before)).
    + destruct ext as [|e ext]; [now elim Hne|]. cbn [rev].
      now destruct (rev ext).
    + now rewrite forallb_rev.
    + reflexivity.
Qed.


Ltac open_panel w :=
  destruct w as [[v tp tl tld ep ec eld em ap ai apv ao ald am] ts s].

Lemma resume_sends_nothing t r w : sent (resume t r w) = sent w.
Proof.
  open_panel w.
  destruct t, r as [d | m]; cbn; try reflexivity;
    destruct (present (error d)); reflexivity.
Qed.

(** X23.  A click on a line of the tree never changes the browsed path.
    On a line that counts as a file, while the browser is shown, it opens
    the editor on that line and requests the file; on any other line it
    does nothing. *)
Theorem tree_click_opens_files_only w n :
  treePath (ui (step w (ClickLine n))) = treePath (ui w) /\
  match nth_error (treeLines (ui w)) n with
  | Some line =>
      if showing Browser w && isFile line then
        view (ui (step w (ClickLine n))) = Editor /\
        editorPath (ui (step w (ClickLine n))) = line /\
        editorLoading (ui (step w (ClickLine n))) = true /\
        sent (step w (ClickLine n)) = sent w ++ [PostRead line]
      else step w (ClickLine n) = w
  | None => step w (ClickLine n) = w
  end.
Proof.
  open_panel w. cbn [step]. unfold showing, handleTreeClick.
  cbn [ui view treeLines treePath].
  destruct v; cbn [andb];
    destruct (nth_error tl n) as [line|]; try (now split);
    destruct (isFile line); now repeat split.
Qed.

(** X24.  What changes files is sent only by its own button while that
    button is enabled: a write by Save, a deletion by Delete once the
    user has confirmed, an AI write with [apply] by Apply, which exists
    only while a preview is on the screen.  Nothing else, and no
    response, sends any of them. *)
Theorem files_change_only_on_request w a :
  filter writes (sent (step w a)) =
  filter writes (sent w) ++
  match a with
  | Save =>
      if showing Editor w &&
         negb (editorLoading (ui w) || is_nil (editorPath (ui w)))
      then [PostWrite (editorPath (ui w)) (editorContent (ui w))] else []
  | Delete true =>
      if showing Editor w &&
         negb (editorLoading (ui w) || is_nil (editorPath (ui w)))
      then [PostDelete (editorPath (ui w))] else []
  | Apply =>
      if showing AIWrite w && present (aiPreview (ui w)) &&
         negb (aiLoading (ui w))
      then [PostAIWrite (aiPath (ui w)) (aiInstruction (ui w)) true] else []
  | _ => []
  end.
Proof.
  destruct a as [x | x | | n | x | x | | | cf | | x | x | | | | i r];
    try (open_panel w; cbn [step]; unfold showing; cbn [ui view];
         destruct v; cbn; now rewrite app_nil_r).
  - (* Browse *)
    open_panel w. cbn [step]. unfold showing; cbn [ui view treeLoading].
    destruct v, tld; cbn; rewrite ?filter_app; cbn; now rewrite app_nil_r.
  - (* ClickLine *)
    open_panel w. cbn [step]. unfold showing, handleTreeClick; cbn [ui view treeLines].
    destruct v; cbn [andb]; try (now rewrite app_nil_r);
      destruct (nth_error tl n) as [line|]; try (now rewrite app_nil_r);
      destruct (isFile line); cbn; rewrite ?filter_app; cbn; now rewrite app_nil_r.
  - (* Load *)
    open_panel w. cbn [step]. unfold showing; cbn [ui view editorLoading].
    destruct v, eld; cbn; rewrite ?filter_app; cbn; now rewrite app_nil_r.
  - (* Save *)
    open_panel w. cbn [step]. unfold showing; cbn [ui view editorLoading editorPath editorContent].
    destruct v, eld, ep; cbn; rewrite ?filter_app; cbn; now rewrite ?app_nil_r.
  - (* Delete *)
    open_panel w. cbn [step]. unfold showing, deleteFile;
      cbn [ui view editorLoading editorPath].
    destruct cf, v, eld, ep; cbn; rewrite ?filter_app; cbn; now rewrite ?app_nil_r.
  - (* Generate *)
    open_panel w. cbn [step]. unfold showing, generateAI;
      cbn [ui view aiLoading aiPath aiInstruction].
    destruct v, ald, ap, ai; cbn; rewrite ?filter_app; cbn; now rewrite ?app_nil_r.
  - (* Apply *)
    open_panel w. cbn [step]. unfold showing;
      cbn [ui view aiLoading aiPreview aiPath aiInstruction].
    destruct v, (present apv), ald; cbn; rewrite ?filter_app; cbn;
      now rewrite ?app_nil_r.
  - (* Discard *)
    open_panel w. cbn [step]. unfold showing; cbn [ui view aiPreview].
    destruct v, (present apv); cbn; now rewrite app_nil_r.
  - (* Respond *)
    cbn [step]. destruct (nth_error (tasks w) i) as [t|]; [|now rewrite app_nil_r].
    rewrite resume_sends_nothing. cbn [sent]. now rewrite app_nil_r.
Qed.


(** X25.  Deleting the file in the editor.  Without the user's
    confirmation nothing happens.  With it one deletion of the path in
    the editor is requested; if the backend answers without an error the
    editor is emptied, and otherwise path and content stay and an error
    message is shown. *)
Theorem delete_needs_confirmation w r :
  showing Editor w = true -> editorLoading (ui w) = false ->
  is_nil (editorPath (ui w)) = false -> tasks w = [] ->
  step w (Delete false) = w /\
  let w' := run w [Delete true; Respond 0 r] in
  sent w' = sent w ++ [PostDelete (editorPath (ui w))] /\
  editorLoading (ui w') = false /\
  if succeeded r then
    editorPath (ui w') = [] /\ editorContent (ui w') = Some [] /\
    option_map kind (editorMsg (ui w')) = Some (lit "ok")
  else
    editorPath (ui w') = editorPath (ui w) /\
    editorContent (ui w') = editorContent (ui w) /\
    option_map kind (editorMsg (ui w')) = Some (lit "err").
Proof.
  open_panel w. unfold showing. cbn [ui view editorLoading editorPath tasks sent
    editorContent].
  destruct v; try discriminate. intros _ -> Hp ->.
  destruct ep as [|c ep]; [discriminate Hp|]. split; [reflexivity|].
  cbv zeta. unfold run. cbn [fold_left].
  destruct r as [d | m]; cbn; [|now repeat split].
  destruct (present (error d)); cbn; now repeat split.
Qed.

(** X26.  Asking the AI for a file.  The request is a preview request
    ([apply] false) for the path and the instruction on the screen.  What
    can be applied afterwards is the content that came back, and nothing
    else: after an error or a failed request no preview is left, not even
    an earlier one, and Apply does nothing. *)
Theorem failed_generation_leaves_nothing_to_apply w r :
  showing AIWrite w = true -> aiLoading (ui w) = false ->
  is_nil (aiPath (ui w)) = false -> is_nil (aiInstruction (ui w)) = false ->
  tasks w = [] ->
  let w' := run w [Generate; Respond 0 r] in
  sent w' = sent w ++ [PostAIWrite (aiPath (ui w)) (aiInstruction (ui w)) false] /\
  aiPreview (ui w') =
    match r with
    | Json data => if present (error data) then None else content data
    | Failed _ => None
    end /\
  (succeeded r = false -> step w' Apply = w').
Proof.
  open_panel w. unfold showing. cbn [ui view aiLoading aiPath aiInstruction tasks sent].
  destruct v; try discriminate. intros _ -> Hp Hi ->.
  destruct ap as [|c1 ap]; [discriminate Hp|].
  destruct ai as [|c2 ai]; [discriminate Hi|].
  cbv zeta. unfold run. cbn [fold_left].
  destruct r as [d | m]; cbn; [|now repeat split].
  destruct (present (error d)); cbn; [now repeat split|].
  repeat split. discriminate.
Qed.

(** ** The loading flags of the tree and of the AI writer *)

Lemma filter_remove_nth {A} (f : A -> bool) i l t :
  nth_error l i = Some t ->
  List.length (filter f l) =
  (List.length (filter f (Terminal.remove_nth i l)) + if f t then 1 else 0)%nat.
Proof.
  revert i. induction l as [|x l IH]; intros [|i] H; try discriminate H.
  - injection H as ->. cbn. destruct (f t); cbn; lia.
  - cbn in H |- *. specialize (IH i H). destruct (f x); cbn; lia.
Qed.

Lemma counted_iff w :
  counted w = true <->
  List.length (filter is_tree_task (tasks w)) =
    (if treeLoading (ui w) then 1 else 0)%nat /\
  List.length (filter is_ai_task (tasks w)) =
    (if aiLoading (ui w) then 1 else 0)%nat.
Proof.
  unfold counted. now rewrite andb_true_iff, !Nat.eqb_eq.
Qed.

Ltac count_tasks :=
  cbn in *; rewrite ?filter_app, ?length_app; cbn; split; lia.

Lemma step_counted w a : counted w = true -> counted (step w a) = true.
Proof.
  rewrite !counted_iff. intros [Ht Ha].
  destruct a as [x | x | | n | x | x | | | cf | | x | x | | | | i r];
    try (open_panel w; cbn [step]; unfold showing; cbn [ui view];
         destruct v; now split).
  - open_panel w. cbn [step]. unfold showing; cbn [ui view treeLoading] in *.
    destruct v, tld; count_tasks.
  - open_panel w. cbn [step]. unfold showing, handleTreeClick; cbn [ui view treeLines] in *.
    destruct v; cbn [andb]; try (now split);
      destruct (nth_error tl n) as [line|]; try (now split);
      destruct (isFile line); count_tasks.
  - open_panel w. cbn [step]. unfold showing; cbn [ui view editorLoading] in *.
    destruct v, eld; count_tasks.
  - open_panel w. cbn [step]. unfold showing; cbn [ui view editorLoading editorPath] in *.
    destruct v, eld, ep; count_tasks.
  - open_panel w. cbn [step]. unfold showing, deleteFile;
      cbn [ui view editorLoading editorPath] in *.
    destruct cf, v, eld, ep; count_tasks.
  - open_panel w. cbn [step]. unfold showing, generateAI;
      cbn [ui view aiLoading aiPath aiInstruction] in *.
    destruct v, ald, ap, ai; count_tasks.
  - open_panel w. cbn [step]. unfold showing;
      cbn [ui view aiLoading aiPreview] in *.
    destruct v, (present apv), ald; count_tasks.
  - open_panel w. cbn [step]. unfold showing; cbn [ui view aiPreview] in *.
    destruct v, (present apv); now split.
  - cbn [step]. destruct (nth_error (tasks w) i) as [t|] eqn:E; [|now split].
    pose proof (filter_remove_nth is_tree_task i _ t E) as Rt.
    pose proof (filter_remove_nth is_ai_task i _ t E) as Ra.
    open_panel w. cbn [ui tasks treeLoading aiLoading] in *.
    destruct t, r as [d | m]; cbn [resume]; cbn;
      try destruct (present (error d)); cbn in *;
      destruct tld, ald; split; lia.
Qed.

Lemma reachable_counted w : reachable w -> counted w = true.
Proof.
  intros [actions ->]. unfold run.
  assert (H : counted start = true) by reflexivity.
  revert H. generalize start. induction actions as [|a l IH]; intros w H.
  - exact H.
  - cbn [fold_left]. apply IH, step_counted, H.
Qed.

(** X27.  However the panel is used, the tree and the AI writer each
    have one request in flight while their loading flag is set and none
    while it is not: their buttons are never left disabled without a
    request that will enable them again, and never send a second request
    on top of a first. *)
Theorem tree_and_ai_flags_are_exact w :
  reachable w ->
  List.length (filter is_tree_task (tasks w)) =
    (if treeLoading (ui w) then 1 else 0)%nat /\
  List.length (filter is_ai_task (tasks w)) =
    (if aiLoading (ui w) then 1 else 0)%nat.
Proof.
  intros H. now apply counted_iff, reachable_counted.
Qed.

(** ** The theorems above at work *)

Lemma delete_needs_confirmation_witness :
  step (run start [Show Editor; EditEditorPath (lit "/workspaces/app/old.py")])
       (Delete false) =
  run start [Show Editor; EditEditorPath (lit "/workspaces/app/old.py")].
Proof.
  apply (delete_needs_confirmation
           (run start [Show Editor; EditEditorPath (lit "/workspaces/app/old.py")])
           (Failed (lit "Failed to fetch")));
    reflexivity.
Defined.

Lemma failed_generation_leaves_nothing_to_apply_witness :
  aiPreview
    (ui (run (run start [Show AIWrite; EditAiPath (lit "/workspaces/app/u.py");
                         EditInstruction (lit "add a docstring")])
           [Generate; Respond 0 (Failed (lit "Failed to fetch"))])) = None.
Proof.
  apply (failed_generation_leaves_nothing_to_apply
           (run start [Show AIWrite; EditAiPath (lit "/workspaces/app/u.py");
                       EditInstruction (lit "add a docstring")])
           (Failed (lit "Failed to fetch")));
    reflexivity.
Defined.

Lemma tree_and_ai_flags_are_exact_witness :
  List.length (filter is_tree_task (tasks (run start [Browse; Browse]))) =
  (if treeLoading (ui (run start [Browse; Browse])) then 1 else 0)%nat.
Proof.
  apply (tree_and_ai_flags_are_exact (run start [Browse; Browse])).
  exists [Browse; Browse]. reflexivity.
Defined.

End FilesFacts.
